(** * Label-grid rasterisation of [create_dataset_from_nusc.py]

    A shallow embedding of [scripts/create_dataset/create_dataset_from_nusc.py]:
    the label mapping of [create_dataset], the nested helpers of
    [generate_out_feature] ([points_in_box], [points_in_box2d], [F2I],
    [Pixel2pc]), the cell loop that writes the 8 output channels, and the
    frame loop of [create_dataset].

    Numeric model.  Python floats and NumPy [float32]/[float64] values are
    idealised as real numbers ([R]); the [astype(np.float32)] casts are the
    identity.  Integers ([size], [label], cell indices) are [Z].  A float
    division raises [ZeroDivisionError] on a zero divisor (Python, and numba's
    default error model), which the embedding keeps as an explicit error. *)

From Stdlib Require Import Reals Zfloor ZArith List String Ascii Bool Lra Lia.
Import ListNotations.

Open Scope R_scope.

(** ** Errors and results *)

Inductive Error : Type :=
| ZeroDivisionError
| IndexError
| ValueError
| Exception (msg : string).

Inductive Result (A : Type) : Type :=
| Ok (a : A)
| Err (e : Error).

Arguments Ok {A} a.
Arguments Err {A} e.

Definition bind {A B : Type} (r : Result A) (k : A -> Result B) : Result B :=
  match r with
  | Ok a => k a
  | Err e => Err e
  end.

Notation "x <- r ;; k" := (bind r (fun x => k))
  (at level 61, r at next level, right associativity).

(** Float division: [a / b], raising on [b = 0]. *)
Definition fdiv (a b : R) : Result R :=
  if Req_dec_T b 0 then Err ZeroDivisionError else Ok (a / b).

(** Comparisons of floats as booleans. *)
Definition Rleb (a b : R) : bool := if Rle_dec a b then true else false.
Definition Rltb (a b : R) : bool := if Rlt_dec a b then true else false.

(** ** Vectors, boxes and point clouds *)

Record vec2 : Type := mk2 { ux : R; uy : R }.
Record vec3 : Type := mk3 { vx : R; vy : R; vz : R }.

Definition sub2 (a b : vec2) : vec2 := mk2 (ux a - ux b) (uy a - uy b).
Definition dot2 (a b : vec2) : R := ux a * ux b + uy a * uy b.

Definition sub3 (a b : vec3) : vec3 :=
  mk3 (vx a - vx b) (vy a - vy b) (vz a - vz b).
Definition add3 (a b : vec3) : vec3 :=
  mk3 (vx a + vx b) (vy a + vy b) (vz a + vz b).
Definition scale3 (t : R) (a : vec3) : vec3 :=
  mk3 (t * vx a) (t * vy a) (t * vz a).
Definition dot3 (a b : vec3) : R := vx a * vx b + vy a * vy b + vz a * vz b.

(** [np.linalg.norm] of a 3-vector. *)
Definition norm3 (a : vec3) : R := sqrt (dot3 a a).

(** [points[:2]]: the first two coordinates. *)
Definition xy (p : vec3) : vec2 := mk2 (vx p) (vy p).

(** The (3, 8) array returned by [box.corners()]: column [k] is [ck]. *)
Record Corners : Type := mkCorners {
  c0 : vec3; c1 : vec3; c2 : vec3; c3 : vec3;
  c4 : vec3; c5 : vec3; c6 : vec3; c7 : vec3
}.

(** The (4, 2) array [box2d]: row [k] is [qk]. *)
Record Quad : Type := mkQuad { q0 : vec2; q1 : vec2; q2 : vec2; q3 : vec2 }.

(** One column of the (4, n) array [pc_points]. *)
Record Point4 : Type := mkPoint4 { px : R; py : R; pz : R; intensity : R }.

(** [pc_points[:3, :]] *)
Definition xyz (p : Point4) : vec3 := mk3 (px p) (py p) (pz p).

(** What [create_dataset] reads of a nuScenes [Box]. *)
Record Box : Type := mkBox {
  name : string;
  corners : Corners;
  yaw : R
}.

(** ** The output grid

    [out_feature] is a dense (size, size, 8) array.  It is represented by the
    value it holds at each index [(i, j, channel)]; every write of the source
    is guarded by [0 <= i < size] and [0 <= j < size]. *)

Definition Grid : Type := Z -> Z -> nat -> R.

(** [np.zeros((size, size, 8))] *)
Definition zeros : Grid := fun _ _ _ => 0.

(** [out_feature[i, j, c] = v] *)
Definition set (g : Grid) (i j : Z) (c : nat) (v : R) : Grid :=
  fun i' j' c' =>
    if (Z.eqb i' i && Z.eqb j' j && Nat.eqb c' c)%bool then v else g i' j' c'.

(** ** Label mapping (lines 185-210 of [create_dataset]) *)

(** [str.split('.')]: never empty, an empty string gives one empty token. *)
Fixpoint split_dot (s : string) : list string :=
  match s with
  | EmptyString => [EmptyString]
  | String ch rest =>
      if Ascii.eqb ch "."%char then EmptyString :: split_dot rest
      else match split_dot rest with
           | [] => [String ch EmptyString]
           | tok :: toks => String ch tok :: toks
           end
  end.

(** List indexing [toks[n]], raising [IndexError] out of range. *)
Definition index (toks : list string) (n : nat) : Result string :=
  match nth_error toks n with
  | Some tok => Ok tok
  | None => Err IndexError
  end.

(** The [elif] chain on [box.name.split('.')[1]]; a second token matching no
    branch leaves [label = 0]. *)
Definition vehicle_label (tok1 : string) : Z :=
  if String.eqb tok1 "car" then 1%Z
  else if String.eqb tok1 "bus" then 2%Z
  else if String.eqb tok1 "truck" then 2%Z
  else if String.eqb tok1 "construction" then 2%Z
  else if String.eqb tok1 "emergency" then 2%Z
  else if String.eqb tok1 "trailer" then 2%Z
  else if String.eqb tok1 "bicycle" then 3%Z
  else if String.eqb tok1 "motorcycle" then 3%Z
  else 0%Z.

(** [Some label]: the box goes on to the rasteriser with that label;
    [None]: the [else: continue] branch. *)
Definition classify (nm : string) : Result (option Z) :=
  let toks := split_dot nm in
  tok0 <- index toks 0 ;;
  if String.eqb tok0 "vehicle" then
    tok1 <- index toks 1 ;;
    Ok (Some (vehicle_label tok1))
  else if String.eqb tok0 "human" then Ok (Some 4%Z)
  else Ok None.

(** ** Nested helpers of [generate_out_feature] *)

(** [points_in_box] for one point (one entry of the mask); [wlh_factor] is
    never read by the source. *)
Definition point_in_box (cs : Corners) (p : vec3) : bool :=
  let p1 := c0 cs in
  let p_x := c4 cs in
  let p_y := c1 cs in
  let p_z := c3 cs in
  let pi := sub3 p_x p1 in
  let pj := sub3 p_y p1 in
  let pk := sub3 p_z p1 in
  let v := sub3 p p1 in
  let iv := dot3 pi v in
  let jv := dot3 pj v in
  let kv := dot3 pk v in
  let mask_x := (Rleb 0 iv && Rleb iv (dot3 pi pi))%bool in
  let mask_y := (Rleb 0 jv && Rleb jv (dot3 pj pj))%bool in
  let mask_z := (Rleb 0 kv && Rleb kv (dot3 pk pk))%bool in
  ((mask_x && mask_y) && mask_z)%bool.

Definition points_in_box (cs : Corners) (points : list vec3) : list bool :=
  map (point_in_box cs) points.

(** [np.count_nonzero] of a boolean mask. *)
Definition count_nonzero (mask : list bool) : Z :=
  Z.of_nat (List.length (filter (fun b => b) mask)).

(** [points_in_box2d]; its [corners] argument is never read by the source. *)
Definition points_in_box2d (box2d : Quad) (point : vec3) : bool :=
  let p1 := q0 box2d in
  let p_x := q1 box2d in
  let p_y := q3 box2d in
  let pi := sub2 p_x p1 in
  let pj := sub2 p_y p1 in
  let v := sub2 (xy point) p1 in
  let iv := dot2 pi v in
  let jv := dot2 pj v in
  let mask_x := (Rleb 0 iv && Rleb iv (dot2 pi pi))%bool in
  let mask_y := (Rleb 0 jv && Rleb jv (dot2 pj pj))%bool in
  (mask_x && mask_y)%bool.

(** [int(np.floor((orig - val) * scale))] *)
Definition F2I (val orig scale : R) : Z := Zfloor ((orig - val) * scale).

Definition Pixel2pc (in_pixel : Z) (in_size out_range : R) : Result R :=
  res <- fdiv (2 * out_range) in_size ;;
  Ok (out_range - (IZR in_pixel + 0.5) * res).

(** ** [generate_out_feature] *)

(** [box2d[:, 0].min()] and its three siblings. *)
Definition box2d_left (box2d : Quad) : R :=
  Rmin (Rmin (Rmin (ux (q0 box2d)) (ux (q1 box2d))) (ux (q2 box2d)))
       (ux (q3 box2d)).
Definition box2d_right (box2d : Quad) : R :=
  Rmax (Rmax (Rmax (ux (q0 box2d)) (ux (q1 box2d))) (ux (q2 box2d)))
       (ux (q3 box2d)).
Definition box2d_top (box2d : Quad) : R :=
  Rmax (Rmax (Rmax (uy (q0 box2d)) (uy (q1 box2d))) (uy (q2 box2d)))
       (uy (q3 box2d)).
Definition box2d_bottom (box2d : Quad) : R :=
  Rmin (Rmin (Rmin (uy (q0 box2d)) (uy (q1 box2d))) (uy (q2 box2d)))
       (uy (q3 box2d)).

(** [inv_res = 0.5 * size / 70.] *)
Definition inv_res (size : Z) : R := 0.5 * IZR size / 70.

(** [res = 1.0 / inv_res; max_length = abs(2 * res)] *)
Definition max_length (size : Z) : Result R :=
  res <- fdiv 1 (inv_res size) ;;
  Ok (Rabs (2 * res)).

Definition search_area_left_idx (size : Z) (box2d : Quad) : Z :=
  F2I (box2d_left box2d) 70 (inv_res size).
Definition search_area_right_idx (size : Z) (box2d : Quad) : Z :=
  F2I (box2d_right box2d) 70 (inv_res size).
Definition search_area_top_idx (size : Z) (box2d : Quad) : Z :=
  F2I (box2d_top box2d) 70 (inv_res size).
Definition search_area_bottom_idx (size : Z) (box2d : Quad) : Z :=
  F2I (box2d_bottom box2d) 70 (inv_res size).

(** The two copies of the clamping [if], for [d] the signed distance
    [box2d_center[k] - grid_center] on one axis. *)
Definition clamp_scale (max_len d : R) : Result R :=
  if Rltb max_len (Rabs d) then fdiv max_len (Rabs d) else Ok 1.

(** [math.atan(math.sin(yaw) / math.cos(yaw))] *)
Definition normalized_yaw (yaw : R) : Result R :=
  t <- fdiv (sin yaw) (cos yaw) ;;
  Ok (atan t).

(** The eight assignments under [if mask:], in source order. *)
Definition write_cell (out_feature : Grid) (i j : Z) (box2d_center : vec2)
    (grid_center_x grid_center_y x_scale y_scale : R)
    (label : Z) (nyaw height_pt : R) : Grid :=
  let o := set out_feature i j 0 1 in
  let o := set o i j 1
             (((ux box2d_center - grid_center_x) * -1) * Rmin x_scale y_scale) in
  let o := set o i j 2
             (((uy box2d_center - grid_center_y) * -1) * Rmin x_scale y_scale) in
  let o := set o i j 3 1 in
  let o := set o i j 4 (IZR label) in
  let o := set o i j 5 (cos (nyaw * 2)) in
  let o := set o i j 6 (sin (nyaw * 2)) in
  set o i j 7 height_pt.

(** The body of the two nested [for] loops, for one [(i, j)]. *)
Definition cell_body (size : Z) (box2d : Quad) (box2d_center : vec2)
    (height_pt : R) (label : Z) (yaw : R) (max_len : R)
    (i j : Z) (out_feature : Grid) : Result Grid :=
  if ((0 <=? i)%Z && (i <? size)%Z && (0 <=? j)%Z && (j <? size)%Z)%bool then
    grid_center_x <- Pixel2pc i (IZR size) 70 ;;
    grid_center_y <- Pixel2pc j (IZR size) 70 ;;
    x_scale <- clamp_scale max_len (ux box2d_center - grid_center_x) ;;
    y_scale <- clamp_scale max_len (uy box2d_center - grid_center_y) ;;
    nyaw <- normalized_yaw yaw ;;
    let mask := points_in_box2d box2d (mk3 grid_center_x grid_center_y 0) in
    if mask then
      Ok (write_cell out_feature i j box2d_center grid_center_x grid_center_y
            x_scale y_scale label nyaw height_pt)
    else Ok out_feature
  else Ok out_feature.

(** [range(a, b)] *)
Definition range (a b : Z) : list Z :=
  map (fun k => (a + Z.of_nat k)%Z) (seq 0 (Z.to_nat (b - a))).

(** A [for] loop whose body may raise. *)
Fixpoint for_each {A S : Type} (xs : list A) (body : A -> S -> Result S)
    (s : S) : Result S :=
  match xs with
  | [] => Ok s
  | x :: rest => s' <- body x s ;; for_each rest body s'
  end.

(** [grid_centers] is passed by the caller but never read, and is left out. *)
Definition generate_out_feature (size : Z) (box_corners : Corners)
    (box2d : Quad) (box2d_center : vec2) (pc_points : list Point4)
    (height_pt : R) (label : Z) (yaw : R) (out_feature : Grid) : Result Grid :=
  max_len <- max_length size ;;
  let num_points :=
    count_nonzero (points_in_box box_corners (map xyz pc_points)) in
  if ((num_points <? 4)%Z && (label =? 0)%Z)%bool then Ok out_feature
  else if ((num_points <? 4)%Z && (label =? 1)%Z)%bool then Ok out_feature
  else if ((num_points <? 4)%Z && (label =? 2)%Z)%bool then Ok out_feature
  else if ((num_points <? 4)%Z && (label =? 3)%Z)%bool then Ok out_feature
  else if ((num_points <? 4)%Z && (label =? 4)%Z)%bool then Ok out_feature
  else
    for_each
      (range (search_area_right_idx size box2d - 1)
             (search_area_left_idx size box2d + 1))
      (fun i =>
         for_each
           (range (search_area_top_idx size box2d - 1)
                  (search_area_bottom_idx size box2d + 1))
           (fun j =>
              cell_body size box2d box2d_center height_pt label yaw max_len
                i j))
      out_feature.

(** ** [create_dataset] *)

(** [corners2d.T[[2, 3, 7, 6]]] *)
Definition footprint (cs : Corners) : Quad :=
  mkQuad (xy (c2 cs)) (xy (c3 cs)) (xy (c7 cs)) (xy (c6 cs)).

(** [box2d.mean(axis=0)] *)
Definition mean2d (q : Quad) : vec2 :=
  mk2 ((ux (q0 q) + ux (q1 q) + ux (q2 q) + ux (q3 q)) / 4)
      ((uy (q0 q) + uy (q1 q) + uy (q2 q) + uy (q3 q)) / 4).

(** [np.linalg.norm(box.corners().T[0] - box.corners().T[3])] *)
Definition height_of (cs : Corners) : R := norm3 (sub3 (c0 cs) (c3 cs)).

(** The body of [for box_idx, box in enumerate(boxes)], lines 185-221; the
    box is the one already moved by the augmentation of lines 181-183. *)
Definition process_box (size : Z) (pc_points : list Point4) (box : Box)
    (out_feature : Grid) : Result Grid :=
  cls <- classify (name box) ;;
  match cls with
  | None => Ok out_feature
  | Some label =>
      let height_pt := height_of (corners box) in
      let box_corners := corners box in
      let box2d := footprint box_corners in
      let box2d_center := mean2d box2d in
      generate_out_feature size box_corners box2d box2d_center pc_points
        height_pt label (yaw box) out_feature
  end.

(** What one pass of the [augmentation_idx] loop works on: the point cloud
    and the boxes as the loader and the augmentation hand them over. *)
Record Frame : Type := mkFrame {
  pc_points_of : list Point4;
  boxes_of : list Box
}.

(** A sample is its frames, one per [augmentation_idx]; a scene is the chain
    of its samples from [first_sample_token] to the empty [next] token. *)
Definition Sample : Type := list Frame.
Definition Scene : Type := list Sample.

(** The observable steps of a run, in order. *)
Inductive Event : Type :=
| Allocated (size : Z)
| Rasterised (nm : string) (label : Z)
| Saved (data_id : Z) (out_feature : Grid).

Record State : Type := mkState { data_id : Z; log : list Event }.

Inductive Flow : Type :=
| Next
| Returned
| Raised (e : Error).

(** The rasteriser is entered exactly when the label chain does not
    [continue]. *)
Definition box_events (box : Box) : list Event :=
  match classify (name box) with
  | Ok (Some label) => [Rasterised (name box) label]
  | _ => []
  end.

Fixpoint boxes_loop (size : Z) (pc_points : list Point4) (boxes : list Box)
    (out_feature : Grid) (lg : list Event) : list Event * Result Grid :=
  match boxes with
  | [] => (lg, Ok out_feature)
  | box :: rest =>
      match process_box size pc_points box out_feature with
      | Err e => (lg ++ box_events box, Err e)
      | Ok out' => boxes_loop size pc_points rest out' (lg ++ box_events box)
      end
  end.

Definition end_reached (end_id : option Z) (d : Z) : bool :=
  match end_id with
  | Some e => (d =? e)%Z
  | None => false
  end.

(** One pass of the [augmentation_idx] loop; the input tensor built by the
    [feature_generator_pb] module is not part of the model. *)
Definition frame_step (size : Z) (end_id : option Z) (fr : Frame)
    (st : State) : State * Flow :=
  if (size <? 0)%Z then (st, Raised ValueError)
  else
    match boxes_loop size (pc_points_of fr) (boxes_of fr) zeros
            (log st ++ [Allocated size]) with
    | (lg, Err e) => (mkState (data_id st) lg, Raised e)
    | (lg, Ok out_feature) =>
        let st' := mkState (data_id st + 1)
                     (lg ++ [Saved (data_id st) out_feature]) in
        if end_reached end_id (data_id st') then (st', Returned)
        else (st', Next)
    end.

(** A loop whose body may [return] from the function or raise. *)
Fixpoint run_loop {A : Type} (step : A -> State -> State * Flow)
    (xs : list A) (st : State) : State * Flow :=
  match xs with
  | [] => (st, Next)
  | x :: rest =>
      match step x st with
      | (st', Next) => run_loop step rest st'
      | stop => stop
      end
  end.

Definition not_square : string :=
  "Currently only supported if width and height are equal".

(** Lines 128-132. *)
Definition square_size (width height : Z) : Result Z :=
  if (width =? height)%Z then Ok width else Err (Exception not_square).

(** [grid_ticks] and [grid_centers] are computed from [grid_length] and
    never read again; loading, augmentation and saving are the callers'. *)
Definition create_dataset (width height : Z) (grid_range : R)
    (end_id : option Z) (scenes : list Scene) : State * Flow :=
  let st0 := mkState 0 [] in
  match square_size width height with
  | Err e => (st0, Raised e)
  | Ok size =>
      match fdiv (2 * grid_range) (IZR size) with
      | Err e => (st0, Raised e)
      | Ok grid_length =>
          run_loop (run_loop (run_loop (frame_step size end_id))) scenes st0
      end
  end.

(** ** Specification vocabulary

    Names for the quantities the loop of [generate_out_feature] computes, used
    to state what a run leaves in the grid. *)

(** The value [Pixel2pc(k, float(size), 70)] returns when it returns. *)
Definition cell_center (size k : Z) : R :=
  70 - (IZR k + 0.5) * (2 * 70 / IZR size).

(** The value of [max_length] when [size] is not zero. *)
Definition max_len_val (size : Z) : R := Rabs (2 * (1 / inv_res size)).

(** The value of [x_scale] / [y_scale] for threshold [m] and distance [d]. *)
Definition scale_of (m d : R) : R :=
  if Rlt_dec m (Rabs d) then m / Rabs d else 1.

(** [(i, j)] is visited by the two [range] loops. *)
Definition candidate (size : Z) (box2d : Quad) (i j : Z) : bool :=
  ((search_area_right_idx size box2d - 1 <=? i)%Z
   && (i <? search_area_left_idx size box2d + 1)%Z
   && (search_area_top_idx size box2d - 1 <=? j)%Z
   && (j <? search_area_bottom_idx size box2d + 1)%Z)%bool.

(** The guard [0 <= i and i < size and 0 <= j and j < size]. *)
Definition in_grid (size i j : Z) : bool :=
  ((0 <=? i)%Z && (i <? size)%Z && (0 <=? j)%Z && (j <? size)%Z)%bool.

(** [mask] for the cell [(i, j)]. *)
Definition cell_mask (size : Z) (box2d : Quad) (i j : Z) : bool :=
  points_in_box2d box2d (mk3 (cell_center size i) (cell_center size j) 0).

Definition written (size : Z) (box2d : Quad) (i j : Z) : bool :=
  (candidate size box2d i j && in_grid size i j && cell_mask size box2d i j)%bool.

(** [min(x_scale, y_scale)] at the cell [(i, j)]. *)
Definition offset_scale (size : Z) (box2d_center : vec2) (i j : Z) : R :=
  Rmin (scale_of (max_len_val size) (ux box2d_center - cell_center size i))
       (scale_of (max_len_val size) (uy box2d_center - cell_center size j)).

(** What the eight assignments store in channel [c] of the cell [(i, j)]. *)
Definition channel_value (size : Z) (box2d_center : vec2) (height_pt : R)
    (label : Z) (yaw : R) (i j : Z) (c : nat) : R :=
  match c with
  | 0%nat => 1
  | 1%nat => ((ux box2d_center - cell_center size i) * -1)
             * offset_scale size box2d_center i j
  | 2%nat => ((uy box2d_center - cell_center size j) * -1)
             * offset_scale size box2d_center i j
  | 3%nat => 1
  | 4%nat => IZR label
  | 5%nat => cos (atan (sin yaw / cos yaw) * 2)
  | 6%nat => sin (atan (sin yaw / cos yaw) * 2)
  | _ => height_pt
  end.

(** [num_points] and the five-branch early return. *)
Definition num_points (box_corners : Corners) (pc_points : list Point4) : Z :=
  count_nonzero (points_in_box box_corners (map xyz pc_points)).

Definition sparse_skip (box_corners : Corners) (pc_points : list Point4)
    (label : Z) : bool :=
  ((num_points box_corners pc_points <? 4)%Z
   && (0 <=? label)%Z && (label <=? 4)%Z)%bool.

(** Membership in a list of indices. *)
Definition mem (k : Z) (ks : list Z) : bool := existsb (Z.eqb k) ks.

(** The grid one pass of the loop body leaves, when nothing raises. *)
Definition cell_update (size : Z) (box2d : Quad) (box2d_center : vec2)
    (height_pt : R) (label : Z) (yaw : R) (i j : Z) (g : Grid) : Grid :=
  if (in_grid size i j && cell_mask size box2d i j)%bool then
    write_cell g i j box2d_center (cell_center size i) (cell_center size j)
      (scale_of (max_len_val size) (ux box2d_center - cell_center size i))
      (scale_of (max_len_val size) (uy box2d_center - cell_center size j))
      label (atan (sin yaw / cos yaw)) height_pt
  else g.

(** The value of the variable [label] when the chain of lines 185-210 ends,
    whether the box goes on or the loop [continue]s. *)
Definition label_of (nm : string) : Result Z :=
  cls <- classify nm ;;
  match cls with
  | Some label => Ok label
  | None => Ok 0%Z
  end.

(** The run did not end in the configuration error of lines 131-132. *)
Definition not_config_error (f : Flow) : Prop :=
  forall msg, f <> Raised (Exception msg).

(** *** The corner convention

    [box.corners()] of the nuScenes devkit returns the eight vertices of a
    cuboid: corners 4, 1 and 3 are the neighbours of corner 0 along the three
    edges, and the other four corners are the sums of those edges. *)

Definition edge_i (cs : Corners) : vec3 := sub3 (c4 cs) (c0 cs).
Definition edge_j (cs : Corners) : vec3 := sub3 (c1 cs) (c0 cs).
Definition edge_k (cs : Corners) : vec3 := sub3 (c3 cs) (c0 cs).

Definition orthogonal_edges (cs : Corners) : Prop :=
  dot3 (edge_i cs) (edge_j cs) = 0
  /\ dot3 (edge_i cs) (edge_k cs) = 0
  /\ dot3 (edge_j cs) (edge_k cs) = 0.

Definition nonzero_edges (cs : Corners) : Prop :=
  dot3 (edge_i cs) (edge_i cs) <> 0
  /\ dot3 (edge_j cs) (edge_j cs) <> 0
  /\ dot3 (edge_k cs) (edge_k cs) <> 0.

Definition cuboid (cs : Corners) : Prop :=
  c2 cs = add3 (c0 cs) (add3 (edge_j cs) (edge_k cs))
  /\ c5 cs = add3 (c0 cs) (add3 (edge_i cs) (edge_j cs))
  /\ c6 cs = add3 (c0 cs) (add3 (edge_i cs) (add3 (edge_j cs) (edge_k cs)))
  /\ c7 cs = add3 (c0 cs) (add3 (edge_i cs) (edge_k cs)).

Definition corner (cs : Corners) (k : nat) : vec3 :=
  nth k [c0 cs; c1 cs; c2 cs; c3 cs; c4 cs; c5 cs; c6 cs; c7 cs] (c0 cs).

Definition midpoint (a b : vec3) : vec3 := scale3 (/ 2) (add3 a b).

Definition centroid (cs : Corners) : vec3 :=
  scale3 (/ 8)
    (add3 (c0 cs) (add3 (c1 cs) (add3 (c2 cs) (add3 (c3 cs)
       (add3 (c4 cs) (add3 (c5 cs) (add3 (c6 cs) (c7 cs)))))))).

(** The three scalar projections of [p - corner0] all lie in
    [[0, dot(edge, edge)]]. *)
Definition projections_in_range (cs : Corners) (p : vec3) : Prop :=
  0 <= dot3 (edge_i cs) (sub3 p (c0 cs)) <= dot3 (edge_i cs) (edge_i cs)
  /\ 0 <= dot3 (edge_j cs) (sub3 p (c0 cs)) <= dot3 (edge_j cs) (edge_j cs)
  /\ 0 <= dot3 (edge_k cs) (sub3 p (c0 cs)) <= dot3 (edge_k cs) (edge_k cs).

(** *** A small scene

    A 2 m cube around the centre (35, 35) of cell (0, 0) of a 2 x 2 grid, in
    the devkit's corner order, with four lidar returns inside it. *)

Definition cube_corners : Corners :=
  mkCorners (mk3 36 36 1) (mk3 36 34 1) (mk3 36 34 0) (mk3 36 36 0)
            (mk3 34 36 1) (mk3 34 34 1) (mk3 34 34 0) (mk3 34 36 0).

Definition cube_point : Point4 := mkPoint4 35 35 0.5 0.

Definition cube_cloud : list Point4 :=
  [cube_point; cube_point; cube_point; cube_point].

Definition cube_box (nm : string) (y : R) : Box := mkBox nm cube_corners y.

(** *** Vocabulary for the further properties *)

(** The string holds no ['.']. *)
Fixpoint no_dot (s : string) : bool :=
  match s with
  | EmptyString => true
  | String ch rest => (negb (Ascii.eqb ch "."%char) && no_dot rest)%bool
  end.

(** The box writes the cell [(i, j)] in the box loop of [create_dataset]:
    it is labelled, not sparse, and the cell is written by the rasteriser. *)
Definition box_writes (size : Z) (pts : list Point4) (box : Box) (i j : Z)
    : bool :=
  match classify (name box) with
  | Ok (Some label) =>
      (negb (sparse_skip (corners box) pts label)
       && written size (footprint (corners box)) i j)%bool
  | _ => false
  end.

(** The value the box stores in channel [c] of a cell it writes. *)
Definition box_value (size : Z) (box : Box) (i j : Z) (c : nat) : R :=
  match classify (name box) with
  | Ok (Some label) =>
      channel_value size (mean2d (footprint (corners box)))
        (height_of (corners box)) label (yaw box) i j c
  | _ => 0
  end.

(** [box2d] is a rectangle in the order the 2D test expects: [q1] and [q3]
    are the neighbours of [q0], [q2] is opposite to it, and the two edges at
    [q0] are orthogonal and not of zero length. *)
Definition rectangle (q : Quad) : Prop :=
  q2 q = mk2 (ux (q1 q) + ux (q3 q) - ux (q0 q))
             (uy (q1 q) + uy (q3 q) - uy (q0 q))
  /\ dot2 (sub2 (q1 q) (q0 q)) (sub2 (q3 q) (q0 q)) = 0
  /\ dot2 (sub2 (q1 q) (q0 q)) (sub2 (q1 q) (q0 q)) <> 0
  /\ dot2 (sub2 (q3 q) (q0 q)) (sub2 (q3 q) (q0 q)) <> 0.

(** What a cell of a finished label grid may hold: nothing at all, or, in a
    cell of the grid, the marks of one box. *)
Definition cell_ok (size : Z) (g : Grid) (i j : Z) : Prop :=
  (forall c, g i j c = 0)
  \/ (in_grid size i j = true
      /\ g i j 0%nat = 1
      /\ g i j 3%nat = 1
      /\ (exists l, (0 <= l <= 4)%Z /\ g i j 4%nat = IZR l)
      /\ Rabs (g i j 1%nat) <= 2 * (2 * 70 / IZR size)
      /\ Rabs (g i j 2%nat) <= 2 * (2 * 70 / IZR size)
      /\ g i j 5%nat * g i j 5%nat + g i j 6%nat * g i j 6%nat = 1
      /\ 0 <= g i j 7%nat
      /\ forall c, (8 <= c)%nat -> g i j c = 0).

(** A box on which neither the label chain nor the heading quotient can
    raise. *)
Definition clean_box (b : Box) : Prop :=
  cos (yaw b) <> 0 /\ name b <> "vehicle"%string.

(** A second 2 m cube, around the centre (-35, -35) of cell (1, 1) of the
    2 x 2 grid, with its own four lidar returns. *)
Definition far_corners : Corners :=
  mkCorners (mk3 (-34) (-34) 1) (mk3 (-34) (-36) 1) (mk3 (-34) (-36) 0)
            (mk3 (-34) (-34) 0) (mk3 (-36) (-34) 1) (mk3 (-36) (-36) 1)
            (mk3 (-36) (-36) 0) (mk3 (-36) (-34) 0).

Definition far_point : Point4 := mkPoint4 (-35) (-35) 0.5 0.

Definition two_cube_cloud : list Point4 :=
  cube_cloud ++ [far_point; far_point; far_point; far_point].

(** A rotation about the vertical axis followed by a translation, applied to
    a point, to the eight corners of a box and to a lidar return. *)
Definition rot_z (theta : R) (v : vec3) : vec3 :=
  mk3 (cos theta * vx v - sin theta * vy v)
      (sin theta * vx v + cos theta * vy v)
      (vz v).

Definition move (theta : R) (t : vec3) (v : vec3) : vec3 :=
  add3 (rot_z theta v) t.

Definition move_corners (theta : R) (t : vec3) (cs : Corners) : Corners :=
  mkCorners (move theta t (c0 cs)) (move theta t (c1 cs))
            (move theta t (c2 cs)) (move theta t (c3 cs))
            (move theta t (c4 cs)) (move theta t (c5 cs))
            (move theta t (c6 cs)) (move theta t (c7 cs)).

Definition move_point (theta : R) (t : vec3) (p : Point4) : Point4 :=
  mkPoint4 (vx (move theta t (xyz p))) (vy (move theta t (xyz p)))
           (vz (move theta t (xyz p))) (intensity p).

(** The ids of the [Saved] events of a log, in order. *)
Fixpoint saved_ids (lg : list Event) : list Z :=
  match lg with
  | [] => []
  | Saved d _ :: rest => d :: saved_ids rest
  | _ :: rest => saved_ids rest
  end.

(** The grids of the [Saved] events of a log, in order. *)
Fixpoint saved_grids (lg : list Event) : list Grid :=
  match lg with
  | [] => []
  | Saved _ g :: rest => g :: saved_grids rest
  | _ :: rest => saved_grids rest
  end.

(** The frames of a run in the order the three nested loops reach them. *)
Definition frames_of (scenes : list Scene) : list Frame :=
  List.concat (List.concat scenes).

(** The edge from corner 0 to corner 3 is vertical (a box with yaw only). *)
Definition upright (cs : Corners) : Prop :=
  vx (edge_k cs) = 0 /\ vy (edge_k cs) = 0.

(** ** Basic facts *)

Lemma half_inv : 0.5 = / 2.
Proof. lra. Qed.

Lemma Rleb_true (a b : R) : Rleb a b = true <-> a <= b.
Proof.
  unfold Rleb. destruct (Rle_dec a b); split; intro H; auto; discriminate.
Qed.

Lemma Rleb_false (a b : R) : Rleb a b = false <-> b < a.
Proof.
  unfold Rleb. destruct (Rle_dec a b); split; intro H; auto; try discriminate.
  - exfalso. lra.
  - lra.
Qed.

Lemma Rltb_true (a b : R) : Rltb a b = true <-> a < b.
Proof.
  unfold Rltb. destruct (Rlt_dec a b); split; intro H; auto; discriminate.
Qed.

Lemma fdiv_ok (a b : R) : b <> 0 -> fdiv a b = Ok (a / b).
Proof.
  intro Hb. unfold fdiv. destruct (Req_dec_T b 0); [contradiction | reflexivity].
Qed.

Lemma fdiv_zero (a : R) : fdiv a 0 = Err ZeroDivisionError.
Proof.
  unfold fdiv. destruct (Req_dec_T 0 0) as [_ | Hn]; [reflexivity | ].
  exfalso. apply Hn. reflexivity.
Qed.

Lemma inv_res_nonzero (size : Z) : size <> 0%Z -> inv_res size <> 0.
Proof.
  intro Hs. unfold inv_res.
  assert (IZR size <> 0) by (apply not_0_IZR; exact Hs).
  lra.
Qed.

Lemma max_length_ok (size : Z) :
  size <> 0%Z -> max_length size = Ok (max_len_val size).
Proof.
  intro Hs. unfold max_length, max_len_val.
  rewrite fdiv_ok by (apply inv_res_nonzero; exact Hs). reflexivity.
Qed.

Lemma max_length_zero : max_length 0 = Err ZeroDivisionError.
Proof.
  unfold max_length, inv_res.
  replace (0.5 * 0 / 70) with 0 by lra.
  rewrite fdiv_zero. reflexivity.
Qed.

Lemma max_len_val_nonneg (size : Z) : 0 <= max_len_val size.
Proof. unfold max_len_val. apply Rabs_pos. Qed.

Lemma Pixel2pc_ok (size k : Z) :
  (0 < size)%Z -> Pixel2pc k (IZR size) 70 = Ok (cell_center size k).
Proof.
  intro Hs. unfold Pixel2pc, cell_center.
  rewrite fdiv_ok; [reflexivity | ].
  apply not_0_IZR. lia.
Qed.

Lemma clamp_scale_ok (m d : R) :
  0 <= m -> clamp_scale m d = Ok (scale_of m d).
Proof.
  intro Hm. unfold clamp_scale, scale_of, Rltb.
  destruct (Rlt_dec m (Rabs d)) as [Hlt | Hge]; [ | reflexivity].
  apply fdiv_ok. lra.
Qed.

Lemma normalized_yaw_ok (y : R) :
  cos y <> 0 -> normalized_yaw y = Ok (atan (sin y / cos y)).
Proof.
  intro Hc. unfold normalized_yaw. rewrite fdiv_ok by exact Hc. reflexivity.
Qed.

Lemma normalized_yaw_err (y : R) :
  cos y = 0 -> normalized_yaw y = Err ZeroDivisionError.
Proof.
  intro Hc. unfold normalized_yaw. rewrite Hc, fdiv_zero. reflexivity.
Qed.

Lemma mem_range (k a b : Z) :
  mem k (range a b) = ((a <=? k)%Z && (k <? b)%Z)%bool.
Proof.
  unfold mem, range.
  destruct ((a <=? k)%Z && (k <? b)%Z)%bool eqn:E.
  - apply andb_prop in E. destruct E as [E1 E2].
    apply Z.leb_le in E1. apply Z.ltb_lt in E2.
    apply existsb_exists. exists k. split; [ | apply Z.eqb_refl].
    apply in_map_iff. exists (Z.to_nat (k - a)). split; [lia | ].
    apply in_seq. lia.
  - destruct (existsb (Z.eqb k) _) eqn:X; [ | reflexivity].
    apply existsb_exists in X. destruct X as [x [Hin Hx]].
    apply Z.eqb_eq in Hx. subst x.
    apply in_map_iff in Hin. destruct Hin as [n [Hn Hin]].
    apply in_seq in Hin.
    apply andb_false_iff in E. destruct E as [E | E].
    + apply Z.leb_gt in E. lia.
    + apply Z.ltb_ge in E. lia.
Qed.

(** ** The cell loop *)

Lemma in_grid_size (size i j : Z) : in_grid size i j = true -> (0 < size)%Z.
Proof.
  unfold in_grid. intro H.
  repeat (apply andb_prop in H; destruct H as [H ?]).
  apply Z.leb_le in H. apply Z.ltb_lt in H0. lia.
Qed.

Lemma cell_body_ok size box2d ctr h l y i j g :
  cos y <> 0 ->
  cell_body size box2d ctr h l y (max_len_val size) i j g
  = Ok (cell_update size box2d ctr h l y i j g).
Proof.
  intro Hc. unfold cell_body, cell_update. fold (in_grid size i j).
  destruct (in_grid size i j) eqn:G; [ | reflexivity].
  pose proof (in_grid_size _ _ _ G) as Hs.
  rewrite !Pixel2pc_ok by exact Hs. cbn [bind].
  rewrite !clamp_scale_ok by apply max_len_val_nonneg. cbn [bind].
  rewrite normalized_yaw_ok by exact Hc. cbn [bind andb].
  unfold cell_mask.
  destruct (points_in_box2d box2d _); reflexivity.
Qed.

(** With [cos yaw = 0] the body raises at every cell inside the grid, whatever
    the membership test would have said, and does nothing elsewhere. *)
Lemma cell_body_zero_cos size box2d ctr h l y i j g :
  cos y = 0 ->
  cell_body size box2d ctr h l y (max_len_val size) i j g
  = if in_grid size i j then Err ZeroDivisionError else Ok g.
Proof.
  intro Hc. unfold cell_body. fold (in_grid size i j).
  destruct (in_grid size i j) eqn:G; [ | reflexivity].
  pose proof (in_grid_size _ _ _ G) as Hs.
  rewrite !Pixel2pc_ok by exact Hs. cbn [bind].
  rewrite !clamp_scale_ok by apply max_len_val_nonneg. cbn [bind].
  rewrite normalized_yaw_err by exact Hc. reflexivity.
Qed.

Lemma cell_update_at size box2d ctr h l y i j g i' j' c :
  cell_update size box2d ctr h l y i j g i' j' c
  = if ((i' =? i)%Z && (j' =? j)%Z
        && (in_grid size i j && cell_mask size box2d i j)
        && (c <? 8)%nat)%bool
    then channel_value size ctr h l y i j c
    else g i' j' c.
Proof.
  unfold cell_update.
  destruct (in_grid size i j && cell_mask size box2d i j)%bool;
    [ | rewrite !andb_false_r; reflexivity].
  rewrite andb_true_r. unfold write_cell, set.
  destruct ((i' =? i)%Z && (j' =? j)%Z)%bool; cbn [andb]; [ | reflexivity].
  do 8 (destruct c as [ | c]; [reflexivity | ]).
  reflexivity.
Qed.

Lemma for_each_ok {A S : Type} (body : A -> S -> Result S) (f : A -> S -> S)
    (xs : list A) :
  (forall x s, body x s = Ok (f x s)) ->
  forall s, for_each xs body s = Ok (fold_left (fun s x => f x s) xs s).
Proof.
  intro Hb. induction xs as [ | x xs IH]; intro s; cbn; [reflexivity | ].
  rewrite Hb. cbn. apply IH.
Qed.

Lemma for_each_skip {A S : Type} (body : A -> S -> Result S) (xs : list A) :
  (forall x s, In x xs -> body x s = Ok s) ->
  forall s, for_each xs body s = Ok s.
Proof.
  induction xs as [ | x xs IH]; intros Hb s; cbn; [reflexivity | ].
  rewrite Hb by (left; reflexivity). cbn.
  apply IH. intros x' s' Hin. apply Hb. right. exact Hin.
Qed.

(** A loop whose body either steps or raises [e], and raises [e] at some
    element whatever the state, raises [e]. *)
Lemma for_each_raises {A S : Type} (body : A -> S -> Result S) (e : Error)
    (xs : list A) :
  (forall x s, In x xs -> body x s = Err e \/ exists s', body x s = Ok s') ->
  (exists x, In x xs /\ forall s, body x s = Err e) ->
  forall s, for_each xs body s = Err e.
Proof.
  induction xs as [ | x xs IH]; intros Hall [x0 [Hin Hx0]] s.
  - destruct Hin.
  - cbn. destruct Hin as [-> | Hin].
    + rewrite Hx0. reflexivity.
    + destruct (Hall x s (or_introl eq_refl)) as [He | [s' Hs']].
      * rewrite He. reflexivity.
      * rewrite Hs'. cbn. apply IH.
        -- intros x' s'' Hin'. apply Hall. right. exact Hin'.
        -- exists x0. split; assumption.
Qed.

Section Sweep.

(** A sweep of updates, each confined to its own cell and to channels 0-7,
    and storing values that do not depend on the grid it finds. *)
Variable upd : Z -> Z -> Grid -> Grid.
Variable hit : Z -> Z -> bool.
Variable val : Z -> Z -> nat -> R.

Hypothesis upd_at : forall i j g i' j' c,
  upd i j g i' j' c
  = if ((i' =? i)%Z && (j' =? j)%Z && hit i j && (c <? 8)%nat)%bool
    then val i j c else g i' j' c.

Lemma sweep_row (i : Z) (js : list Z) :
  forall g i' j' c,
    fold_left (fun s j => upd i j s) js g i' j' c
    = if ((i' =? i)%Z && mem j' js && hit i' j' && (c <? 8)%nat)%bool
      then val i' j' c else g i' j' c.
Proof.
  induction js as [ | j js IH]; intros g i' j' c; cbn [fold_left mem existsb].
  - rewrite andb_false_r. reflexivity.
  - fold (mem j' js). rewrite IH, upd_at.
    destruct (Z.eqb_spec i' i) as [-> | Hi]; cbn [andb]; [ | reflexivity].
    destruct (Z.eqb_spec j' j) as [-> | Hj]; cbn [andb orb].
    + destruct (mem j js); cbn [andb]; [ | reflexivity].
      destruct (hit i j && (c <? 8)%nat)%bool; reflexivity.
    + reflexivity.
Qed.

Lemma sweep_rows (ks js : list Z) :
  forall g i' j' c,
    fold_left (fun s i => fold_left (fun s' j => upd i j s') js s) ks g i' j' c
    = if (mem i' ks && mem j' js && hit i' j' && (c <? 8)%nat)%bool
      then val i' j' c else g i' j' c.
Proof.
  induction ks as [ | i ks IH]; intros g i' j' c; cbn [fold_left mem existsb].
  - reflexivity.
  - fold (mem i' ks). rewrite IH, sweep_row.
    destruct (Z.eqb_spec i' i) as [-> | Hi]; cbn [andb orb].
    + destruct (mem i ks); cbn [andb]; [ | reflexivity].
      destruct (mem j' js && hit i j' && (c <? 8)%nat)%bool; reflexivity.
    + reflexivity.
Qed.

End Sweep.

Lemma for_each_err_or_ok {A S : Type} (body : A -> S -> Result S) (e : Error)
    (xs : list A) :
  (forall x s, body x s = Err e \/ exists s', body x s = Ok s') ->
  forall s, for_each xs body s = Err e \/ exists s', for_each xs body s = Ok s'.
Proof.
  intro Hb. induction xs as [ | x xs IH]; intro s; cbn.
  - right. exists s. reflexivity.
  - destruct (Hb x s) as [He | [s' Hs']].
    + rewrite He. left. reflexivity.
    + rewrite Hs'. cbn. apply IH.
Qed.

Lemma In_range (k a b : Z) : In k (range a b) <-> (a <= k < b)%Z.
Proof.
  unfold range. rewrite in_map_iff. split.
  - intros [n [Hn Hin]]. apply in_seq in Hin. lia.
  - intro H. exists (Z.to_nat (k - a)). split; [lia | ].
    apply in_seq. lia.
Qed.

(** ** [generate_out_feature]: the early return and the loop *)

Lemma early_return_chain (n l : Z) (a b : Result Grid) :
  (if ((n <? 4)%Z && (l =? 0)%Z)%bool then a
   else if ((n <? 4)%Z && (l =? 1)%Z)%bool then a
   else if ((n <? 4)%Z && (l =? 2)%Z)%bool then a
   else if ((n <? 4)%Z && (l =? 3)%Z)%bool then a
   else if ((n <? 4)%Z && (l =? 4)%Z)%bool then a
   else b)
  = if ((n <? 4)%Z && (0 <=? l)%Z && (l <=? 4)%Z)%bool then a else b.
Proof.
  destruct (n <? 4)%Z; cbn [andb]; [ | reflexivity].
  destruct (Z.eqb_spec l 0) as [-> | H0]; [reflexivity | ].
  destruct (Z.eqb_spec l 1) as [-> | H1]; [reflexivity | ].
  destruct (Z.eqb_spec l 2) as [-> | H2]; [reflexivity | ].
  destruct (Z.eqb_spec l 3) as [-> | H3]; [reflexivity | ].
  destruct (Z.eqb_spec l 4) as [-> | H4]; [reflexivity | ].
  destruct (Z.leb_spec 0 l); cbn [andb]; [ | reflexivity].
  destruct (Z.leb_spec l 4); [lia | reflexivity].
Qed.

Lemma generate_skip size cs box2d ctr pts h l y g :
  size <> 0%Z ->
  sparse_skip cs pts l = true ->
  generate_out_feature size cs box2d ctr pts h l y g = Ok g.
Proof.
  intros Hs Hk. unfold generate_out_feature.
  rewrite max_length_ok by exact Hs. cbn [bind].
  rewrite early_return_chain. fold (num_points cs pts).
  unfold sparse_skip in Hk. rewrite Hk. reflexivity.
Qed.

Lemma generate_loop size cs box2d ctr pts h l y g :
  size <> 0%Z ->
  sparse_skip cs pts l = false ->
  generate_out_feature size cs box2d ctr pts h l y g
  = for_each
      (range (search_area_right_idx size box2d - 1)
             (search_area_left_idx size box2d + 1))
      (fun i =>
         for_each
           (range (search_area_top_idx size box2d - 1)
                  (search_area_bottom_idx size box2d + 1))
           (fun j => cell_body size box2d ctr h l y (max_len_val size) i j))
      g.
Proof.
  intros Hs Hk. unfold generate_out_feature.
  rewrite max_length_ok by exact Hs. cbn [bind].
  rewrite early_return_chain. fold (num_points cs pts).
  unfold sparse_skip in Hk. rewrite Hk. reflexivity.
Qed.

(** The grid a run returns, cell by cell. *)
Lemma generate_spec size cs box2d ctr pts h l y g :
  size <> 0%Z ->
  cos y <> 0 ->
  exists g',
    generate_out_feature size cs box2d ctr pts h l y g = Ok g'
    /\ forall i j c,
         g' i j c
         = if (negb (sparse_skip cs pts l) && written size box2d i j
               && (c <? 8)%nat)%bool
           then channel_value size ctr h l y i j c
           else g i j c.
Proof.
  intros Hs Hc. destruct (sparse_skip cs pts l) eqn:Hk.
  - exists g. split; [apply generate_skip; assumption | ]. reflexivity.
  - rewrite generate_loop by assumption.
    eexists. split.
    + rewrite (for_each_ok _
                 (fun i s =>
                    fold_left
                      (fun s' j => cell_update size box2d ctr h l y i j s')
                      (range (search_area_top_idx size box2d - 1)
                             (search_area_bottom_idx size box2d + 1)) s)).
      * reflexivity.
      * intros i s. apply for_each_ok. intros j s'.
        apply cell_body_ok. exact Hc.
    + intros i j c. cbn [negb andb].
      rewrite (sweep_rows
                 (cell_update size box2d ctr h l y)
                 (fun i j => (in_grid size i j && cell_mask size box2d i j)%bool)
                 (channel_value size ctr h l y)
                 (cell_update_at size box2d ctr h l y)).
      rewrite !mem_range. unfold written, candidate.
      rewrite !andb_assoc. reflexivity.
Qed.

(** With no candidate cell inside the grid the loop writes nothing and
    evaluates no division, whatever the yaw. *)
Lemma generate_clipped size cs box2d ctr pts h l y g :
  size <> 0%Z ->
  (forall i j, candidate size box2d i j = true -> in_grid size i j = false) ->
  generate_out_feature size cs box2d ctr pts h l y g = Ok g.
Proof.
  intros Hs Hout. destruct (sparse_skip cs pts l) eqn:Hk.
  - apply generate_skip; assumption.
  - rewrite generate_loop by assumption.
    apply for_each_skip. intros i s Hi.
    apply for_each_skip. intros j s' Hj.
    apply In_range in Hi. apply In_range in Hj.
    unfold cell_body. fold (in_grid size i j).
    rewrite Hout; [reflexivity | ].
    unfold candidate. repeat (apply andb_true_intro; split);
      first [apply Z.leb_le | apply Z.ltb_lt]; lia.
Qed.

(** With [cos yaw = 0] the loop raises as soon as one candidate cell lies
    inside the grid. *)
Lemma generate_zero_cos size cs box2d ctr pts h l y g :
  size <> 0%Z ->
  sparse_skip cs pts l = false ->
  cos y = 0 ->
  (exists i j, candidate size box2d i j = true /\ in_grid size i j = true) ->
  generate_out_feature size cs box2d ctr pts h l y g = Err ZeroDivisionError.
Proof.
  intros Hs Hk Hc [i0 [j0 [Hcand Hin]]].
  rewrite generate_loop by assumption.
  unfold candidate in Hcand.
  repeat (apply andb_prop in Hcand; destruct Hcand as [Hcand ?]).
  apply Z.leb_le in Hcand. apply Z.ltb_lt in H1.
  apply Z.leb_le in H0. apply Z.ltb_lt in H.
  assert (Hbody : forall i j s,
             cell_body size box2d ctr h l y (max_len_val size) i j s
             = Err ZeroDivisionError
             \/ exists s',
                 cell_body size box2d ctr h l y (max_len_val size) i j s
                 = Ok s').
  { intros i j s. rewrite cell_body_zero_cos by exact Hc.
    destruct (in_grid size i j); [left; reflexivity | right; eexists; reflexivity]. }
  apply for_each_raises.
  - intros i s _. apply for_each_err_or_ok. intros j s'. apply Hbody.
  - exists i0. split; [apply In_range; lia | ].
    intro s. apply for_each_raises.
    + intros j s' _. apply Hbody.
    + exists j0. split; [apply In_range; lia | ].
      intro s'. rewrite cell_body_zero_cos by exact Hc. rewrite Hin. reflexivity.
Qed.

(** ** The small scene, evaluated *)

Ltac unfold_geometry :=
  cbv [point_in_box points_in_box2d footprint mean2d xy xyz
       dot2 dot3 sub2 sub3 add3 scale3
       cube_point cube_corners
       c0 c1 c2 c3 c4 c5 c6 c7 q0 q1 q2 q3
       ux uy vx vy vz px py pz].

Ltac decide_cmp :=
  repeat match goal with
         | |- context [Rleb ?a ?b] =>
             replace (Rleb a b) with true
               by (symmetry; apply Rleb_true; lra)
         end.

Ltac decide_minmax :=
  repeat match goal with
         | |- context [Rmin ?a ?b] =>
             first [ rewrite (Rmin_left a b) by lra
                   | rewrite (Rmin_right a b) by lra ]
         | |- context [Rmax ?a ?b] =>
             first [ rewrite (Rmax_left a b) by lra
                   | rewrite (Rmax_right a b) by lra ]
         end;
  try reflexivity.

Lemma cube_num_points : num_points cube_corners cube_cloud = 4%Z.
Proof.
  unfold num_points, points_in_box, cube_cloud. cbn [map].
  assert (H : point_in_box cube_corners (xyz cube_point) = true).
  { unfold_geometry. decide_cmp. reflexivity. }
  rewrite H. reflexivity.
Qed.

Lemma cube_not_sparse (l : Z) : sparse_skip cube_corners cube_cloud l = false.
Proof. unfold sparse_skip. rewrite cube_num_points. reflexivity. Qed.

Lemma cube_left : box2d_left (footprint cube_corners) = 34.
Proof. unfold box2d_left. unfold_geometry. decide_minmax. Qed.

Lemma cube_right : box2d_right (footprint cube_corners) = 36.
Proof. unfold box2d_right. unfold_geometry. decide_minmax. Qed.

Lemma cube_top : box2d_top (footprint cube_corners) = 36.
Proof. unfold box2d_top. unfold_geometry. decide_minmax. Qed.

Lemma cube_bottom : box2d_bottom (footprint cube_corners) = 34.
Proof. unfold box2d_bottom. unfold_geometry. decide_minmax. Qed.

Lemma cube_candidate : candidate 2 (footprint cube_corners) 0 0 = true.
Proof.
  unfold candidate, search_area_right_idx, search_area_left_idx,
    search_area_top_idx, search_area_bottom_idx.
  rewrite cube_left, cube_right, cube_top, cube_bottom.
  assert (H34 : F2I 34 70 (inv_res 2) = 0%Z).
  { unfold F2I, inv_res. apply Zfloor_eq. lra. }
  assert (H36 : F2I 36 70 (inv_res 2) = 0%Z).
  { unfold F2I, inv_res. apply Zfloor_eq. lra. }
  rewrite H34, H36. reflexivity.
Qed.

Lemma cube_cell_center : cell_center 2 0 = 35.
Proof. unfold cell_center. lra. Qed.

Lemma cube_mask : cell_mask 2 (footprint cube_corners) 0 0 = true.
Proof.
  unfold cell_mask. rewrite cube_cell_center.
  unfold_geometry. decide_cmp. reflexivity.
Qed.

Lemma cube_written : written 2 (footprint cube_corners) 0 0 = true.
Proof.
  unfold written. rewrite cube_candidate, cube_mask. reflexivity.
Qed.

Lemma cos_0_nonzero : cos 0 <> 0.
Proof. rewrite cos_0. lra. Qed.

(** ** Label mapping and the skip of unrecognised boxes *)

Lemma classify_other (nm tok0 : string) :
  nth_error (split_dot nm) 0 = Some tok0 ->
  tok0 <> "vehicle"%string -> tok0 <> "human"%string ->
  classify nm = Ok None.
Proof.
  intros H0 Hv Hh. unfold classify, index. rewrite H0. cbn [bind].
  destruct (String.eqb_spec tok0 "vehicle"); [contradiction | ].
  destruct (String.eqb_spec tok0 "human"); [contradiction | ].
  reflexivity.
Qed.

Lemma classify_vehicle (nm tok1 : string) :
  nth_error (split_dot nm) 0 = Some "vehicle"%string ->
  nth_error (split_dot nm) 1 = Some tok1 ->
  classify nm = Ok (Some (vehicle_label tok1)).
Proof.
  intros H0 H1. unfold classify, index. rewrite H0. cbn [bind].
  rewrite String.eqb_refl, H1. reflexivity.
Qed.

(** C1 (as stated, refuted): a box named [vehicle.foo] keeps [label = 0], yet
    with four points inside it the rasteriser fills cell (0, 0) of an empty
    2 x 2 grid: channel 0 becomes 1 and channel 4 holds the class id 0. *)
Lemma unknown_vehicle_is_rasterised :
  ~ (forall (size : Z) (pts : list Point4) (box : Box) (g g' : Grid),
        label_of (name box) = Ok 0%Z ->
        process_box size pts box g = Ok g' ->
        forall i j c, g' i j c = g i j c).
Proof.
  intro Hclaim.
  destruct (generate_spec 2 cube_corners (footprint cube_corners)
              (mean2d (footprint cube_corners)) cube_cloud
              (height_of cube_corners) 0 0 zeros)
    as [g' [Hrun Hat]]; [lia | apply cos_0_nonzero | ].
  assert (Hp : process_box 2 cube_cloud (cube_box "vehicle.foo" 0) zeros = Ok g')
    by exact Hrun.
  specialize (Hclaim 2%Z cube_cloud (cube_box "vehicle.foo" 0) zeros g'
                eq_refl Hp 0%Z 0%Z 0%nat).
  rewrite Hat, cube_not_sparse, cube_written in Hclaim.
  cbn in Hclaim. unfold zeros in Hclaim. lra.
Qed.

(** A box named [vehicle.<other>] keeps [label = 0] and is handed to the
    rasteriser with class id 0. *)
Lemma unknown_vehicle_reaches_rasteriser (size : Z) (pts : list Point4)
    (box : Box) (g : Grid) (tok1 : string) :
  nth_error (split_dot (name box)) 0 = Some "vehicle"%string ->
  nth_error (split_dot (name box)) 1 = Some tok1 ->
  vehicle_label tok1 = 0%Z ->
  label_of (name box) = Ok 0%Z
  /\ box_events box = [Rasterised (name box) 0]
  /\ process_box size pts box g
     = generate_out_feature size (corners box)
         (footprint (corners box)) (mean2d (footprint (corners box)))
         pts (height_of (corners box)) 0 (yaw box) g.
Proof.
  intros H0 H1 Hl.
  pose proof (classify_vehicle _ _ H0 H1) as Hc. rewrite Hl in Hc.
  unfold label_of, box_events, process_box. rewrite Hc. cbn.
  repeat split; reflexivity.
Qed.

Lemma split_dot_first (nm : string) :
  exists tok0, nth_error (split_dot nm) 0 = Some tok0.
Proof.
  induction nm as [ | ch rest IH]; cbn.
  - eexists. reflexivity.
  - destruct (Ascii.eqb ch "."%char); [eexists; reflexivity | ].
    destruct (split_dot rest); eexists; reflexivity.
Qed.

(** C1 (amended): a box is skipped by the first token of its category: when
    that token is neither [vehicle] nor [human] the label stays 0, the loop
    [continue]s, the rasteriser is not entered, and the grid and the log of
    the frame are left as they were. *)
Theorem skip_is_by_first_token (size : Z) (pts : list Point4) (box : Box)
    (g : Grid) (lg : list Event) (tok0 : string) :
  nth_error (split_dot (name box)) 0 = Some tok0 ->
  tok0 <> "vehicle"%string -> tok0 <> "human"%string ->
  label_of (name box) = Ok 0%Z
  /\ process_box size pts box g = Ok g
  /\ boxes_loop size pts [box] g lg = (lg, Ok g).
Proof.
  intros H0 Hv Hh.
  pose proof (classify_other _ _ H0 Hv Hh) as Hc.
  assert (Hp : process_box size pts box g = Ok g).
  { unfold process_box. rewrite Hc. reflexivity. }
  split; [unfold label_of; rewrite Hc; reflexivity | ].
  split; [exact Hp | ].
  cbn [boxes_loop]. rewrite Hp. unfold box_events. rewrite Hc.
  rewrite app_nil_r. reflexivity.
Qed.

Lemma skip_is_by_first_token_witness :
  label_of "movable_object.barrier" = Ok 0%Z
  /\ process_box 2 cube_cloud (cube_box "movable_object.barrier" 0) zeros
     = Ok zeros
  /\ boxes_loop 2 cube_cloud [cube_box "movable_object.barrier" 0] zeros
       [Allocated 2]
     = ([Allocated 2], Ok zeros).
Proof.
  apply (skip_is_by_first_token 2 cube_cloud
           (cube_box "movable_object.barrier" 0) zeros [Allocated 2]
           "movable_object"%string).
  - reflexivity.
  - discriminate.
  - discriminate.
Defined.

(** ** Sparse boxes *)

(** C2: when fewer than 4 points pass the 3D membership test,
    [generate_out_feature] returns the grid it was given, for each of the
    class ids 0 to 4 alike (on a grid of non-zero size, as [create_dataset]
    builds them). *)
Theorem sparse_box_returns_grid_unchanged (size : Z) (box_corners : Corners)
    (box2d : Quad) (box2d_center : vec2) (pc_points : list Point4)
    (height_pt : R) (label : Z) (y : R) (out_feature : Grid) :
  size <> 0%Z ->
  (count_nonzero (points_in_box box_corners (map xyz pc_points)) < 4)%Z ->
  (0 <= label <= 4)%Z ->
  generate_out_feature size box_corners box2d box2d_center pc_points
    height_pt label y out_feature
  = Ok out_feature.
Proof.
  intros Hs Hn Hl. apply generate_skip; [exact Hs | ].
  unfold sparse_skip, num_points.
  repeat (apply andb_true_intro; split);
    first [apply Z.ltb_lt | apply Z.leb_le]; lia.
Qed.

Lemma sparse_box_returns_grid_unchanged_witness :
  generate_out_feature 2 cube_corners (footprint cube_corners)
    (mean2d (footprint cube_corners)) [cube_point; cube_point]
    (height_of cube_corners) 3 0 zeros
  = Ok zeros.
Proof.
  apply (sparse_box_returns_grid_unchanged 2 cube_corners
           (footprint cube_corners) (mean2d (footprint cube_corners))
           [cube_point; cube_point] (height_of cube_corners) 3 0 zeros).
  - lia.
  - assert (H : (count_nonzero
                   (points_in_box cube_corners
                      (map xyz [cube_point; cube_point])) <= 2)%Z).
    { unfold count_nonzero, points_in_box. cbn [map filter].
      destruct (point_in_box cube_corners (xyz cube_point)); cbn; lia. }
    lia.
  - lia.
Defined.

(** ** The channels of a written cell *)

(** C3: a candidate cell inside the grid whose centre passes the 2D test
    receives channel 0 = 1, channels 1 and 2 = the negated offset of the 2D
    box centre from the cell centre times [min(x_scale, y_scale)], channel
    3 = 1, channel 4 = the class id, channels 5 and 6 = the cosine and sine of
    twice the normalised yaw, and channel 7 = the distance from corner 0 to
    corner 3. *)
Theorem written_cell_channels (size : Z) (pts : list Point4) (box : Box)
    (label : Z) (g : Grid) (i j : Z) :
  classify (name box) = Ok (Some label) ->
  sparse_skip (corners box) pts label = false ->
  cos (yaw box) <> 0 ->
  candidate size (footprint (corners box)) i j = true ->
  in_grid size i j = true ->
  points_in_box2d (footprint (corners box))
    (mk3 (cell_center size i) (cell_center size j) 0) = true ->
  let center2d := mean2d (footprint (corners box)) in
  let x_scale := scale_of (max_len_val size) (ux center2d - cell_center size i) in
  let y_scale := scale_of (max_len_val size) (uy center2d - cell_center size j) in
  let d := sub3 (c0 (corners box)) (c3 (corners box)) in
  exists g' nyaw,
    process_box size pts box g = Ok g'
    /\ Pixel2pc i (IZR size) 70 = Ok (cell_center size i)
    /\ Pixel2pc j (IZR size) 70 = Ok (cell_center size j)
    /\ normalized_yaw (yaw box) = Ok nyaw
    /\ g' i j 0%nat = 1
    /\ g' i j 1%nat
       = (ux center2d - cell_center size i) * -1 * Rmin x_scale y_scale
    /\ g' i j 2%nat
       = (uy center2d - cell_center size j) * -1 * Rmin x_scale y_scale
    /\ g' i j 3%nat = 1
    /\ g' i j 4%nat = IZR label
    /\ g' i j 5%nat = cos (2 * nyaw)
    /\ g' i j 6%nat = sin (2 * nyaw)
    /\ g' i j 7%nat = sqrt (vx d * vx d + vy d * vy d + vz d * vz d).
Proof.
  intros Hcls Hk Hc Hcand Hin Hmask center2d x_scale y_scale d.
  pose proof (in_grid_size _ _ _ Hin) as Hs.
  destruct (generate_spec size (corners box) (footprint (corners box))
              center2d pts (height_of (corners box)) label (yaw box) g)
    as [g' [Hrun Hat]]; [lia | exact Hc | ].
  assert (Hw : written size (footprint (corners box)) i j = true).
  { unfold written, cell_mask. rewrite Hcand, Hin, Hmask. reflexivity. }
  exists g', (atan (sin (yaw box) / cos (yaw box))).
  split.
  { unfold process_box. rewrite Hcls. exact Hrun. }
  split; [apply Pixel2pc_ok; exact Hs | ].
  split; [apply Pixel2pc_ok; exact Hs | ].
  split; [apply normalized_yaw_ok; exact Hc | ].
  rewrite !Hat, Hk, Hw. cbn [negb andb Nat.ltb Nat.leb channel_value].
  rewrite (Rmult_comm 2).
  repeat split; reflexivity.
Qed.

Lemma written_cell_channels_witness :
  exists g' nyaw,
    process_box 2 cube_cloud (cube_box "vehicle.car" 0) zeros = Ok g'
    /\ Pixel2pc 0 2 70 = Ok (cell_center 2 0)
    /\ Pixel2pc 0 2 70 = Ok (cell_center 2 0)
    /\ normalized_yaw 0 = Ok nyaw
    /\ g' 0%Z 0%Z 0%nat = 1
    /\ g' 0%Z 0%Z 1%nat
       = (ux (mean2d (footprint cube_corners)) - cell_center 2 0) * -1
         * Rmin (scale_of (max_len_val 2)
                   (ux (mean2d (footprint cube_corners)) - cell_center 2 0))
                (scale_of (max_len_val 2)
                   (uy (mean2d (footprint cube_corners)) - cell_center 2 0))
    /\ g' 0%Z 0%Z 2%nat
       = (uy (mean2d (footprint cube_corners)) - cell_center 2 0) * -1
         * Rmin (scale_of (max_len_val 2)
                   (ux (mean2d (footprint cube_corners)) - cell_center 2 0))
                (scale_of (max_len_val 2)
                   (uy (mean2d (footprint cube_corners)) - cell_center 2 0))
    /\ g' 0%Z 0%Z 3%nat = 1
    /\ g' 0%Z 0%Z 4%nat = 1
    /\ g' 0%Z 0%Z 5%nat = cos (2 * nyaw)
    /\ g' 0%Z 0%Z 6%nat = sin (2 * nyaw)
    /\ g' 0%Z 0%Z 7%nat
       = sqrt (vx (sub3 (c0 cube_corners) (c3 cube_corners))
               * vx (sub3 (c0 cube_corners) (c3 cube_corners))
               + vy (sub3 (c0 cube_corners) (c3 cube_corners))
                 * vy (sub3 (c0 cube_corners) (c3 cube_corners))
               + vz (sub3 (c0 cube_corners) (c3 cube_corners))
                 * vz (sub3 (c0 cube_corners) (c3 cube_corners))).
Proof.
  apply (written_cell_channels 2 cube_cloud (cube_box "vehicle.car" 0) 1 zeros
           0 0).
  - reflexivity.
  - apply cube_not_sparse.
  - apply cos_0_nonzero.
  - apply cube_candidate.
  - reflexivity.
  - apply cube_mask.
Defined.

(** ** The clamping threshold *)

Lemma max_len_val_two_cells (size : Z) :
  (0 < size)%Z -> max_len_val size = 2 * (2 * 70 / IZR size).
Proof.
  intro Hs. assert (Hp : 0 < IZR size) by (apply IZR_lt; exact Hs).
  unfold max_len_val, inv_res. rewrite half_inv.
  replace (2 * (1 / (/ 2 * IZR size / 70))) with (2 * (2 * 70 / IZR size))
    by (field; lra).
  apply Rabs_pos_eq.
  assert (0 < / IZR size) by (apply Rinv_0_lt_compat; exact Hp).
  unfold Rdiv. nra.
Qed.

(** C4 (as stated, refuted): on a 280-cell grid the threshold is 1, not
    2 * (70 / 280) = 0.5; a cell 0.75 away on an axis is beyond 0.5 and still
    gets scale 1, not 0.5 / 0.75. *)
Lemma threshold_is_not_one_cell :
  ~ (forall (size : Z) (d m s : R),
        (0 < size)%Z ->
        max_length size = Ok m ->
        clamp_scale m d = Ok s ->
        s = if Rlt_dec (2 * (70 / IZR size)) (Rabs d)
            then 2 * (70 / IZR size) / Rabs d
            else 1).
Proof.
  intro Hclaim.
  assert (Hm : max_len_val 280 = 1).
  { rewrite max_len_val_two_cells by lia. lra. }
  assert (Hd : Rabs (3 / 4) = 3 / 4) by (apply Rabs_pos_eq; lra).
  specialize (Hclaim 280%Z (3 / 4) 1 1).
  rewrite Hd in Hclaim.
  destruct (Rlt_dec (2 * (70 / 280)) (3 / 4)) as [_ | Hn]; [ | lra].
  assert (H : 1 = 2 * (70 / 280) / (3 / 4)).
  { apply Hclaim.
    - lia.
    - rewrite max_length_ok by lia. rewrite Hm. reflexivity.
    - rewrite clamp_scale_ok by lra. unfold scale_of. rewrite Hd.
      destruct (Rlt_dec 1 (3 / 4)); [lra | reflexivity]. }
  lra.
Qed.

(** C4 (amended): the threshold is two cell widths, [2 * (2 * 70 / size)],
    with the range fixed to 70: an axis whose distance exceeds it gets the
    threshold divided by the distance, any other axis gets 1, and the offsets
    written to channels 1 and 2 are multiplied by the smaller of the two. *)
Theorem threshold_is_two_cell_widths (size : Z) :
  (0 < size)%Z ->
  let two_cells := 2 * (2 * 70 / IZR size) in
  let axis_scale := fun d : R =>
    if Rlt_dec two_cells (Rabs d) then two_cells / Rabs d else 1 in
  max_length size = Ok two_cells
  /\ (forall d, clamp_scale two_cells d = Ok (axis_scale d))
  /\ (forall cs box2d ctr pts h l y g i j,
         sparse_skip cs pts l = false ->
         cos y <> 0 ->
         written size box2d i j = true ->
         exists g',
           generate_out_feature size cs box2d ctr pts h l y g = Ok g'
           /\ g' i j 1%nat
              = (ux ctr - cell_center size i) * -1
                * Rmin (axis_scale (ux ctr - cell_center size i))
                       (axis_scale (uy ctr - cell_center size j))
           /\ g' i j 2%nat
              = (uy ctr - cell_center size j) * -1
                * Rmin (axis_scale (ux ctr - cell_center size i))
                       (axis_scale (uy ctr - cell_center size j))).
Proof.
  intros Hs two_cells axis_scale.
  pose proof (max_len_val_two_cells size Hs) as Hm. fold two_cells in Hm.
  split; [rewrite max_length_ok by lia; rewrite Hm; reflexivity | ].
  split.
  - intro d. unfold axis_scale. rewrite <- Hm.
    apply clamp_scale_ok. apply max_len_val_nonneg.
  - intros cs box2d ctr pts h l y g i j Hk Hc Hw.
    destruct (generate_spec size cs box2d ctr pts h l y g)
      as [g' [Hrun Hat]]; [lia | exact Hc | ].
    exists g'. split; [exact Hrun | ].
    rewrite !Hat, Hk, Hw. cbn [negb andb Nat.ltb Nat.leb channel_value].
    unfold offset_scale, scale_of, axis_scale. rewrite Hm.
    split; reflexivity.
Qed.

Lemma threshold_is_two_cell_widths_witness :
  max_length 2 = Ok (2 * (2 * 70 / 2))
  /\ exists g',
       generate_out_feature 2 cube_corners (footprint cube_corners)
         (mean2d (footprint cube_corners)) cube_cloud
         (height_of cube_corners) 1 0 zeros = Ok g'
       /\ g' 0%Z 0%Z 1%nat = 0
       /\ g' 0%Z 0%Z 2%nat = 0.
Proof.
  destruct (threshold_is_two_cell_widths 2 ltac:(lia)) as [Hm [_ Hoff]].
  split; [exact Hm | ].
  destruct (Hoff cube_corners (footprint cube_corners)
              (mean2d (footprint cube_corners)) cube_cloud
              (height_of cube_corners) 1%Z 0 zeros 0%Z 0%Z
              (cube_not_sparse 1) cos_0_nonzero cube_written)
    as [g' [Hrun [H1 H2]]].
  exists g'. split; [exact Hrun | ].
  rewrite H1, H2, cube_cell_center. unfold_geometry.
  split; lra.
Defined.

(** ** Grid indexing *)

(** C5: for [0 < R], [0 < N] and [-R < v <= R], the centre of the cell that
    [F2I] assigns to [v] is at most one cell width [2R/N] from [v], and [F2I]
    never increases when its input grows. *)
Theorem grid_index_round_trip (R0 : R) (N : Z) (v : R) :
  0 < R0 -> (0 < N)%Z -> - R0 < v <= R0 ->
  (exists w,
      Pixel2pc (F2I v R0 (0.5 * IZR N / R0)) (IZR N) R0 = Ok w
      /\ Rabs (w - v) <= 2 * R0 / IZR N)
  /\ (forall v1 v2,
         v1 <= v2 ->
         (F2I v2 R0 (0.5 * IZR N / R0) <= F2I v1 R0 (0.5 * IZR N / R0))%Z).
Proof.
  intros HR HN Hv.
  assert (Hn : 0 < IZR N) by (apply IZR_lt; exact HN).
  assert (Hin : 0 < / IZR N) by (apply Rinv_0_lt_compat; exact Hn).
  assert (HiR : 0 < / R0) by (apply Rinv_0_lt_compat; exact HR).
  split.
  - unfold Pixel2pc. rewrite fdiv_ok by lra. cbn [bind].
    eexists. split; [reflexivity | ].
    unfold F2I. set (x := (R0 - v) * (0.5 * IZR N / R0)).
    destruct (Zfloor_bound x) as [Hlo Hhi].
    set (k := 2 * R0 / IZR N).
    assert (Hk : 0 < k) by (unfold k, Rdiv; nra).
    assert (Hx : R0 - v = x * k).
    { unfold x, k. rewrite half_inv. field. lra. }
    replace (R0 - (IZR (Zfloor x) + 0.5) * k - v)
      with ((x - IZR (Zfloor x) - 0.5) * k) by (rewrite half_inv; lra).
    apply Rabs_le. split; nra.
  - intros v1 v2 Hle. unfold F2I. apply Zfloor_le.
    assert (0 <= 0.5 * IZR N / R0) by (unfold Rdiv; nra).
    nra.
Qed.

Lemma grid_index_round_trip_witness :
  (exists w,
      Pixel2pc (F2I 34 70 (0.5 * 2 / 70)) 2 70 = Ok w
      /\ Rabs (w - 34) <= 2 * 70 / 2)
  /\ (forall v1 v2,
         v1 <= v2 ->
         (F2I v2 70 (0.5 * 2 / 70) <= F2I v1 70 (0.5 * 2 / 70))%Z).
Proof.
  apply (grid_index_round_trip 70 2 34).
  - lra.
  - lia.
  - lra.
Defined.

(** ** The 3D membership test *)

Lemma point_in_box_iff (cs : Corners) (p : vec3) :
  point_in_box cs p = true <-> projections_in_range cs p.
Proof.
  unfold point_in_box, projections_in_range, edge_i, edge_j, edge_k.
  rewrite !andb_true_iff, !Rleb_true. tauto.
Qed.

Lemma point_in_box_false (cs : Corners) (p : vec3) :
  ~ projections_in_range cs p -> point_in_box cs p = false.
Proof.
  intro H. destruct (point_in_box cs p) eqn:E; [ | reflexivity].
  exfalso. apply H. apply point_in_box_iff. exact E.
Qed.

Lemma dot3_self_nonneg (a : vec3) : 0 <= dot3 a a.
Proof. unfold dot3. nra. Qed.

(** A point [c0 + a*e_i + b*e_j + c*e_k] with coefficients in [[0, 1]] passes
    the test when the edges are orthogonal. *)
Lemma combination_in_box (cs : Corners) (a b c : R) (p : vec3) :
  orthogonal_edges cs ->
  0 <= a <= 1 -> 0 <= b <= 1 -> 0 <= c <= 1 ->
  sub3 p (c0 cs)
  = add3 (scale3 a (edge_i cs)) (add3 (scale3 b (edge_j cs)) (scale3 c (edge_k cs))) ->
  point_in_box cs p = true.
Proof.
  intros [Hij [Hik Hjk]] Ha Hb Hc Hp.
  apply point_in_box_iff. unfold projections_in_range. rewrite Hp.
  pose proof (dot3_self_nonneg (edge_i cs)) as Ni.
  pose proof (dot3_self_nonneg (edge_j cs)) as Nj.
  pose proof (dot3_self_nonneg (edge_k cs)) as Nk.
  assert (Ei : dot3 (edge_i cs)
                 (add3 (scale3 a (edge_i cs))
                    (add3 (scale3 b (edge_j cs)) (scale3 c (edge_k cs))))
               = a * dot3 (edge_i cs) (edge_i cs)
                 + b * dot3 (edge_i cs) (edge_j cs)
                 + c * dot3 (edge_i cs) (edge_k cs))
    by (unfold dot3, add3, scale3; cbn; ring).
  assert (Ej : dot3 (edge_j cs)
                 (add3 (scale3 a (edge_i cs))
                    (add3 (scale3 b (edge_j cs)) (scale3 c (edge_k cs))))
               = a * dot3 (edge_i cs) (edge_j cs)
                 + b * dot3 (edge_j cs) (edge_j cs)
                 + c * dot3 (edge_j cs) (edge_k cs))
    by (unfold dot3, add3, scale3; cbn; ring).
  assert (Ek : dot3 (edge_k cs)
                 (add3 (scale3 a (edge_i cs))
                    (add3 (scale3 b (edge_j cs)) (scale3 c (edge_k cs))))
               = a * dot3 (edge_i cs) (edge_k cs)
                 + b * dot3 (edge_j cs) (edge_k cs)
                 + c * dot3 (edge_k cs) (edge_k cs))
    by (unfold dot3, add3, scale3; cbn; ring).
  rewrite Ei, Ej, Ek, Hij, Hik, Hjk.
  repeat split; nra.
Qed.

(** Every corner is [c0] plus a 0/1 combination of the edges. *)
Lemma corner_coordinates (cs : Corners) (n : nat) :
  cuboid cs ->
  exists a b c,
    (a = 0 \/ a = 1) /\ (b = 0 \/ b = 1) /\ (c = 0 \/ c = 1)
    /\ sub3 (corner cs n) (c0 cs)
       = add3 (scale3 a (edge_i cs))
           (add3 (scale3 b (edge_j cs)) (scale3 c (edge_k cs))).
Proof.
  intros [H2 [H5 [H6 H7]]].
  assert (T : forall a b c (P : R -> R -> R -> Prop),
             (a = 0 \/ a = 1) -> (b = 0 \/ b = 1) -> (c = 0 \/ c = 1) ->
             P a b c ->
             exists a b c,
               (a = 0 \/ a = 1) /\ (b = 0 \/ b = 1) /\ (c = 0 \/ c = 1)
               /\ P a b c).
  { intros a b c P Ha Hb Hc HP. exists a, b, c. auto. }
  unfold corner.
  destruct n as [ | [ | [ | [ | [ | [ | [ | [ | n]]]]]]]]; cbn [nth];
    try rewrite H2; try rewrite H5; try rewrite H6; try rewrite H7.
  - apply (T 0 0 0); auto.
    unfold sub3, add3, scale3, edge_i, edge_j, edge_k; cbn; f_equal; ring.
  - apply (T 0 1 0); auto.
    unfold sub3, add3, scale3, edge_i, edge_j, edge_k; cbn; f_equal; ring.
  - apply (T 0 1 1); auto.
    unfold sub3, add3, scale3, edge_i, edge_j, edge_k; cbn; f_equal; ring.
  - apply (T 0 0 1); auto.
    unfold sub3, add3, scale3, edge_i, edge_j, edge_k; cbn; f_equal; ring.
  - apply (T 1 0 0); auto.
    unfold sub3, add3, scale3, edge_i, edge_j, edge_k; cbn; f_equal; ring.
  - apply (T 1 1 0); auto.
    unfold sub3, add3, scale3, edge_i, edge_j, edge_k; cbn; f_equal; ring.
  - apply (T 1 1 1); auto.
    unfold sub3, add3, scale3, edge_i, edge_j, edge_k; cbn; f_equal; ring.
  - apply (T 1 0 1); auto.
    unfold sub3, add3, scale3, edge_i, edge_j, edge_k; cbn; f_equal; ring.
  - destruct n; apply (T 0 0 0); auto;
      unfold sub3, add3, scale3, edge_i, edge_j, edge_k; cbn; f_equal; ring.
Qed.

Lemma midpoint_coordinates (cs : Corners) (x y : vec3) (a b c a' b' c' : R) :
  sub3 x (c0 cs)
  = add3 (scale3 a (edge_i cs))
      (add3 (scale3 b (edge_j cs)) (scale3 c (edge_k cs))) ->
  sub3 y (c0 cs)
  = add3 (scale3 a' (edge_i cs))
      (add3 (scale3 b' (edge_j cs)) (scale3 c' (edge_k cs))) ->
  sub3 (midpoint x y) (c0 cs)
  = add3 (scale3 ((a + a') / 2) (edge_i cs))
      (add3 (scale3 ((b + b') / 2) (edge_j cs))
         (scale3 ((c + c') / 2) (edge_k cs))).
Proof.
  intros Hx Hy.
  assert (E : sub3 (midpoint x y) (c0 cs)
              = scale3 (/ 2) (add3 (sub3 x (c0 cs)) (sub3 y (c0 cs)))).
  { unfold midpoint, sub3, add3, scale3; cbn; f_equal; lra. }
  rewrite E, Hx, Hy.
  unfold add3, scale3; cbn; f_equal; lra.
Qed.

Lemma centroid_coordinates (cs : Corners) :
  cuboid cs ->
  sub3 (centroid cs) (c0 cs)
  = add3 (scale3 (/ 2) (edge_i cs))
      (add3 (scale3 (/ 2) (edge_j cs)) (scale3 (/ 2) (edge_k cs))).
Proof.
  intros [H2 [H5 [H6 H7]]]. unfold centroid. rewrite H2, H5, H6, H7.
  unfold sub3, add3, scale3, edge_i, edge_j, edge_k; cbn; f_equal; lra.
Qed.

(** Moving along an edge by more than its length leaves the range of the
    projection onto that edge. *)
Lemma beyond_edge (e o p : vec3) (t : R) :
  dot3 e e <> 0 ->
  0 <= dot3 e (sub3 p o) <= dot3 e e ->
  1 < Rabs t ->
  ~ (0 <= dot3 e (sub3 (add3 p (scale3 t e)) o) <= dot3 e e).
Proof.
  intros Hnz Hin Ht.
  pose proof (dot3_self_nonneg e) as Hn.
  assert (Hpos : 0 < dot3 e e) by lra.
  assert (E : dot3 e (sub3 (add3 p (scale3 t e)) o)
              = dot3 e (sub3 p o) + t * dot3 e e)
    by (unfold dot3, sub3, add3, scale3; cbn; ring).
  rewrite E. unfold Rabs in Ht.
  destruct (Rcase_abs t); intros [Hlo Hhi]; nra.
Qed.

(** C6: for a cuboid in the devkit's corner order with orthogonal edges of
    non-zero length, the 3D test accepts the centroid and the midpoint of any
    two corners, rejects an accepted point moved along an edge by more than
    that edge's length, and accepts a point exactly when its three
    projections onto the edges lie in the closed range from 0 to the squared
    edge length. *)
Theorem membership_test_3d (cs : Corners) :
  orthogonal_edges cs -> nonzero_edges cs -> cuboid cs ->
  point_in_box cs (centroid cs) = true
  /\ (forall a b,
         point_in_box cs (midpoint (corner cs a) (corner cs b)) = true)
  /\ (forall p e t,
         point_in_box cs p = true ->
         e = edge_i cs \/ e = edge_j cs \/ e = edge_k cs ->
         1 < Rabs t ->
         point_in_box cs (add3 p (scale3 t e)) = false)
  /\ (forall p,
         point_in_box cs p = true
         <-> 0 <= dot3 (sub3 (c4 cs) (c0 cs)) (sub3 p (c0 cs))
               <= dot3 (sub3 (c4 cs) (c0 cs)) (sub3 (c4 cs) (c0 cs))
             /\ 0 <= dot3 (sub3 (c1 cs) (c0 cs)) (sub3 p (c0 cs))
                  <= dot3 (sub3 (c1 cs) (c0 cs)) (sub3 (c1 cs) (c0 cs))
             /\ 0 <= dot3 (sub3 (c3 cs) (c0 cs)) (sub3 p (c0 cs))
                  <= dot3 (sub3 (c3 cs) (c0 cs)) (sub3 (c3 cs) (c0 cs))).
Proof.
  intros Horth [Ni [Nj Nk]] Hcub.
  split; [ | split; [ | split]].
  - apply (combination_in_box cs (/ 2) (/ 2) (/ 2)); try lra; try assumption.
    apply centroid_coordinates. exact Hcub.
  - intros a b.
    destruct (corner_coordinates cs a Hcub)
      as [a1 [a2 [a3 [Ha1 [Ha2 [Ha3 Ea]]]]]].
    destruct (corner_coordinates cs b Hcub)
      as [b1 [b2 [b3 [Hb1 [Hb2 [Hb3 Eb]]]]]].
    apply (combination_in_box cs ((a1 + b1) / 2) ((a2 + b2) / 2)
             ((a3 + b3) / 2)).
    + exact Horth.
    + destruct Ha1, Hb1; subst; lra.
    + destruct Ha2, Hb2; subst; lra.
    + destruct Ha3, Hb3; subst; lra.
    + apply midpoint_coordinates; assumption.
  - intros p e t Hp He Ht.
    apply point_in_box_iff in Hp. destruct Hp as [Pi [Pj Pk]].
    apply point_in_box_false. intros [Qi [Qj Qk]].
    destruct He as [-> | [-> | ->]].
    + exact (beyond_edge _ _ _ _ Ni Pi Ht Qi).
    + exact (beyond_edge _ _ _ _ Nj Pj Ht Qj).
    + exact (beyond_edge _ _ _ _ Nk Pk Ht Qk).
  - intro p. apply point_in_box_iff.
Qed.

Lemma cube_orthogonal : orthogonal_edges cube_corners.
Proof.
  unfold orthogonal_edges, edge_i, edge_j, edge_k. unfold_geometry.
  repeat split; lra.
Qed.

Lemma cube_nonzero : nonzero_edges cube_corners.
Proof.
  unfold nonzero_edges, edge_i, edge_j, edge_k. unfold_geometry.
  repeat split; lra.
Qed.

Lemma cube_cuboid : cuboid cube_corners.
Proof.
  unfold cuboid, edge_i, edge_j, edge_k. unfold_geometry.
  repeat split; f_equal; lra.
Qed.

Lemma membership_test_3d_witness :
  point_in_box cube_corners (centroid cube_corners) = true
  /\ point_in_box cube_corners
       (midpoint (corner cube_corners 2) (corner cube_corners 4)) = true
  /\ point_in_box cube_corners
       (add3 (centroid cube_corners) (scale3 2 (edge_i cube_corners))) = false.
Proof.
  destruct (membership_test_3d cube_corners cube_orthogonal cube_nonzero
              cube_cuboid) as [Hc [Hm [Ht _]]].
  split; [exact Hc | ].
  split; [apply Hm | ].
  apply Ht.
  - exact Hc.
  - left. reflexivity.
  - rewrite Rabs_pos_eq; lra.
Defined.

(** ** Heading encoding *)

(** C7: when [cos yaw] and [cos (yaw + PI)] are not zero, the normalised yaw
    of [yaw] and of [yaw + PI] exist and give the same encoded pair
    (cos 2a, sin 2a); a run of the rasteriser with either yaw returns the
    same grid. *)
Theorem heading_half_turn (y : R) :
  cos y <> 0 -> cos (y + PI) <> 0 ->
  (exists n1 n2,
      normalized_yaw y = Ok n1
      /\ normalized_yaw (y + PI) = Ok n2
      /\ (cos (n1 * 2), sin (n1 * 2)) = (cos (n2 * 2), sin (n2 * 2)))
  /\ (forall size cs box2d ctr pts h l g,
         size <> 0%Z ->
         exists g1 g2,
           generate_out_feature size cs box2d ctr pts h l y g = Ok g1
           /\ generate_out_feature size cs box2d ctr pts h l (y + PI) g = Ok g2
           /\ forall i j c, g1 i j c = g2 i j c).
Proof.
  intros Hc Hc'.
  assert (E : sin (y + PI) / cos (y + PI) = sin y / cos y).
  { rewrite neg_sin, neg_cos. field. exact Hc. }
  split.
  - exists (atan (sin y / cos y)), (atan (sin (y + PI) / cos (y + PI))).
    split; [apply normalized_yaw_ok; exact Hc | ].
    split; [apply normalized_yaw_ok; exact Hc' | ].
    rewrite E. reflexivity.
  - intros size cs box2d ctr pts h l g Hs.
    destruct (generate_spec size cs box2d ctr pts h l y g Hs Hc)
      as [g1 [R1 A1]].
    destruct (generate_spec size cs box2d ctr pts h l (y + PI) g Hs Hc')
      as [g2 [R2 A2]].
    exists g1, g2. split; [exact R1 | ]. split; [exact R2 | ].
    intros i j c. rewrite A1, A2.
    destruct (negb (sparse_skip cs pts l) && written size box2d i j
              && (c <? 8)%nat)%bool; [ | reflexivity].
    unfold channel_value. rewrite E. reflexivity.
Qed.

Lemma heading_half_turn_witness :
  exists n1 n2,
    normalized_yaw 0 = Ok n1
    /\ normalized_yaw (0 + PI) = Ok n2
    /\ (cos (n1 * 2), sin (n1 * 2)) = (cos (n2 * 2), sin (n2 * 2)).
Proof.
  apply (heading_half_turn 0).
  - apply cos_0_nonzero.
  - rewrite neg_cos, cos_0. lra.
Defined.

(** ** Frame of one rasterisation *)

Lemma for_each_same {A S : Type} (body : A -> S -> Result S) (xs : list A) :
  (forall x s s', body x s = Ok s' -> s' = s) ->
  forall s s', for_each xs body s = Ok s' -> s' = s.
Proof.
  intro Hb. induction xs as [ | x xs IH]; intros s s' H; cbn in H.
  - injection H as <-. reflexivity.
  - destruct (body x s) as [s1 | e] eqn:E; cbn in H; [ | discriminate].
    apply Hb in E. subst s1. apply IH. exact H.
Qed.

(** Whatever the yaw, a run that returns has left every cell it did not
    write as it was. *)
Lemma generate_frame size cs box2d ctr pts h l y g g' :
  size <> 0%Z ->
  generate_out_feature size cs box2d ctr pts h l y g = Ok g' ->
  forall i j c, written size box2d i j = false -> g' i j c = g i j c.
Proof.
  intros Hs Hrun i j c Hw.
  destruct (Req_dec_T (cos y) 0) as [Hz | Hc].
  - destruct (sparse_skip cs pts l) eqn:Hk.
    + rewrite generate_skip in Hrun by assumption.
      injection Hrun as <-. reflexivity.
    + rewrite generate_loop in Hrun by assumption.
      apply for_each_same in Hrun; [subst g'; reflexivity | ].
      intros i0 s s' H0. apply for_each_same in H0; [exact H0 | ].
      intros j0 s0 s0' H1. rewrite cell_body_zero_cos in H1 by exact Hz.
      destruct (in_grid size i0 j0); [discriminate | ].
      injection H1 as <-. reflexivity.
  - destruct (generate_spec size cs box2d ctr pts h l y g Hs Hc)
      as [g'' [Hrun' Hat]].
    rewrite Hrun in Hrun'. injection Hrun' as <-.
    rewrite Hat, Hw, andb_false_r. reflexivity.
Qed.

(** C8: one rasterisation changes only cells that are in the search
    rectangle, inside the grid, and whose centre passes the 2D test; every
    other cell keeps its value on every channel.  The run returns whenever
    [cos yaw] is not zero, and candidate cells outside the grid are passed
    over without any error. *)
Theorem rasterisation_frame (size : Z) (cs : Corners) (box2d : Quad)
    (ctr : vec2) (pts : list Point4) (h : R) (l : Z) (y : R) (g : Grid) :
  size <> 0%Z ->
  (forall g',
      generate_out_feature size cs box2d ctr pts h l y g = Ok g' ->
      forall i j c,
        candidate size box2d i j = false
        \/ in_grid size i j = false
        \/ points_in_box2d box2d
             (mk3 (cell_center size i) (cell_center size j) 0) = false ->
        g' i j c = g i j c)
  /\ (cos y <> 0 ->
      exists g', generate_out_feature size cs box2d ctr pts h l y g = Ok g')
  /\ ((forall i j, candidate size box2d i j = true -> in_grid size i j = false) ->
      generate_out_feature size cs box2d ctr pts h l y g = Ok g).
Proof.
  intro Hs. split; [ | split].
  - intros g' Hrun i j c Hout.
    apply (generate_frame _ _ _ _ _ _ _ _ _ _ Hs Hrun).
    unfold written, cell_mask.
    destruct Hout as [-> | [-> | ->]];
      rewrite ?andb_false_r; reflexivity.
  - intro Hc.
    destruct (generate_spec size cs box2d ctr pts h l y g Hs Hc)
      as [g' [Hrun _]].
    exists g'. exact Hrun.
  - intro Hout. apply generate_clipped; assumption.
Qed.

Lemma rasterisation_frame_witness :
  exists g',
    generate_out_feature 2 cube_corners (footprint cube_corners)
      (mean2d (footprint cube_corners)) cube_cloud (height_of cube_corners)
      1 0 zeros = Ok g'
    /\ g' 1%Z 1%Z 0%nat = 0.
Proof.
  destruct (rasterisation_frame 2 cube_corners (footprint cube_corners)
              (mean2d (footprint cube_corners)) cube_cloud
              (height_of cube_corners) 1 0 zeros ltac:(lia))
    as [Hframe [Htotal _]].
  destruct (Htotal cos_0_nonzero) as [g' Hrun].
  exists g'. split; [exact Hrun | ].
  rewrite (Hframe g' Hrun 1%Z 1%Z 0%nat).
  - reflexivity.
  - left. unfold candidate, search_area_left_idx.
    rewrite cube_left.
    assert (H34 : F2I 34 70 (inv_res 2) = 0%Z).
    { unfold F2I, inv_res. apply Zfloor_eq. lra. }
    rewrite H34. cbn. rewrite andb_false_r. reflexivity.
Defined.

(** ** The unguarded division *)

Lemma generate_error_kind size cs box2d ctr pts h l y g e :
  generate_out_feature size cs box2d ctr pts h l y g = Err e ->
  e = ZeroDivisionError /\ (size = 0%Z \/ cos y = 0).
Proof.
  intro Hrun. destruct (Z.eq_dec size 0) as [-> | Hs].
  - unfold generate_out_feature in Hrun. rewrite max_length_zero in Hrun.
    cbn in Hrun. injection Hrun as <-. auto.
  - destruct (Req_dec_T (cos y) 0) as [Hz | Hc].
    + split; [ | right; exact Hz].
      destruct (sparse_skip cs pts l) eqn:Hk.
      * rewrite generate_skip in Hrun by assumption. discriminate.
      * rewrite generate_loop in Hrun by assumption.
        assert (Hbody : forall i j s,
                   cell_body size box2d ctr h l y (max_len_val size) i j s
                   = Err ZeroDivisionError
                   \/ exists s',
                       cell_body size box2d ctr h l y (max_len_val size) i j s
                       = Ok s').
        { intros i j s. rewrite cell_body_zero_cos by exact Hz.
          destruct (in_grid size i j);
            [left; reflexivity | right; eexists; reflexivity]. }
        match type of Hrun with
        | for_each ?xs ?body ?g0 = _ =>
            assert (Hor : for_each xs body g0 = Err ZeroDivisionError
                          \/ exists s', for_each xs body g0 = Ok s')
        end.
        { apply for_each_err_or_ok. intros i s.
          apply for_each_err_or_ok. intros j s'. apply Hbody. }
        destruct Hor as [He | [s' Hs']].
        -- rewrite He in Hrun. injection Hrun as <-. reflexivity.
        -- rewrite Hs' in Hrun. discriminate.
    + destruct (generate_spec size cs box2d ctr pts h l y g Hs Hc)
        as [g' [Hrun' _]].
      rewrite Hrun in Hrun'. discriminate.
Qed.

(** C10: the quotient [sin yaw / cos yaw] is evaluated for every candidate
    cell inside the grid, before the 2D test.  With [cos yaw <> 0] the run
    returns a grid; with [cos yaw = 0] a box that reaches the loop and has a
    candidate cell inside the grid raises [ZeroDivisionError], whatever the
    2D test says of that cell; and no run on a grid of non-zero size raises
    for any other cause. *)
Theorem yaw_division_precondition (size : Z) (cs : Corners) (box2d : Quad)
    (ctr : vec2) (pts : list Point4) (h : R) (l : Z) (y : R) (g : Grid) :
  size <> 0%Z ->
  (cos y <> 0 ->
   exists g', generate_out_feature size cs box2d ctr pts h l y g = Ok g')
  /\ (cos y = 0 ->
      sparse_skip cs pts l = false ->
      (exists i j, candidate size box2d i j = true /\ in_grid size i j = true) ->
      generate_out_feature size cs box2d ctr pts h l y g
      = Err ZeroDivisionError)
  /\ (forall e,
         generate_out_feature size cs box2d ctr pts h l y g = Err e ->
         e = ZeroDivisionError /\ cos y = 0).
Proof.
  intro Hs. split; [ | split].
  - intro Hc.
    destruct (generate_spec size cs box2d ctr pts h l y g Hs Hc)
      as [g' [Hrun _]].
    exists g'. exact Hrun.
  - intros Hz Hk Hcell. apply generate_zero_cos; assumption.
  - intros e Hrun. apply generate_error_kind in Hrun.
    destruct Hrun as [He [Hsz | Hz]]; [contradiction | auto].
Qed.

Lemma yaw_division_precondition_witness :
  (exists g',
      generate_out_feature 2 cube_corners (footprint cube_corners)
        (mean2d (footprint cube_corners)) cube_cloud (height_of cube_corners)
        1 0 zeros = Ok g')
  /\ generate_out_feature 2 cube_corners (footprint cube_corners)
       (mean2d (footprint cube_corners)) cube_cloud (height_of cube_corners)
       1 (PI / 2) zeros = Err ZeroDivisionError.
Proof.
  split.
  - apply (proj1 (yaw_division_precondition 2 cube_corners
                    (footprint cube_corners) (mean2d (footprint cube_corners))
                    cube_cloud (height_of cube_corners) 1 0 zeros ltac:(lia))).
    apply cos_0_nonzero.
  - apply (proj1 (proj2 (yaw_division_precondition 2 cube_corners
                    (footprint cube_corners) (mean2d (footprint cube_corners))
                    cube_cloud (height_of cube_corners) 1 (PI / 2) zeros
                    ltac:(lia)))).
    + apply cos_PI2.
    + apply cube_not_sparse.
    + exists 0%Z, 0%Z. split; [apply cube_candidate | reflexivity].
Defined.

(** ** The configuration check of [create_dataset] *)

Lemma classify_error_kind (nm : string) (e : Error) :
  classify nm = Err e -> e = IndexError.
Proof.
  unfold classify, index.
  destruct (nth_error (split_dot nm) 0) as [tok0 | ]; cbn [bind].
  - destruct (String.eqb tok0 "vehicle").
    + destruct (nth_error (split_dot nm) 1); cbn [bind]; intro H.
      * discriminate.
      * injection H as <-. reflexivity.
    + destruct (String.eqb tok0 "human"); discriminate.
  - intro H. injection H as <-. reflexivity.
Qed.

Lemma process_box_error_kind size pts box g e :
  process_box size pts box g = Err e ->
  e = IndexError \/ e = ZeroDivisionError.
Proof.
  unfold process_box.
  destruct (classify (name box)) as [[label | ] | e'] eqn:Hc; cbn [bind].
  - intro H. apply generate_error_kind in H. right. apply H.
  - discriminate.
  - intro H. injection H as <-. left.
    apply (classify_error_kind _ _ Hc).
Qed.

Lemma boxes_loop_error_kind size pts boxes :
  forall g lg lg' e,
    boxes_loop size pts boxes g lg = (lg', Err e) ->
    e = IndexError \/ e = ZeroDivisionError.
Proof.
  induction boxes as [ | box rest IH]; intros g lg lg' e H; cbn in H.
  - discriminate.
  - destruct (process_box size pts box g) as [g1 | e1] eqn:Hp.
    + apply IH in H. exact H.
    + injection H as _ <-. apply (process_box_error_kind _ _ _ _ _ Hp).
Qed.

Lemma frame_step_flow size end_id fr st :
  not_config_error (snd (frame_step size end_id fr st)).
Proof.
  unfold frame_step, not_config_error. intro msg.
  destruct (size <? 0)%Z; [cbn; discriminate | ].
  destruct (boxes_loop size (pc_points_of fr) (boxes_of fr) zeros
              (log st ++ [Allocated size])) as [lg [out | e]] eqn:Hb.
  - destruct (end_reached end_id _); cbn; discriminate.
  - cbn. apply boxes_loop_error_kind in Hb.
    destruct Hb as [-> | ->]; discriminate.
Qed.

Lemma run_loop_flow {A : Type} (step : A -> State -> State * Flow)
    (xs : list A) :
  (forall x st, not_config_error (snd (step x st))) ->
  forall st, not_config_error (snd (run_loop step xs st)).
Proof.
  intro Hstep. induction xs as [ | x xs IH]; intro st; cbn.
  - intro msg. discriminate.
  - pose proof (Hstep x st) as Hx.
    destruct (step x st) as [st' [ | | e]]; cbn in Hx |- *.
    + apply IH.
    + exact Hx.
    + exact Hx.
Qed.

(** C9: with [width <> height] the run stops with the configuration error
    in its initial state: nothing allocated, nothing rasterised, nothing
    saved, whatever the scenes.  With [width = height] the check yields
    [size = width] and the run never ends in that error. *)
Theorem square_grid_check (width height : Z) (grid_range : R)
    (end_id : option Z) (scenes : list Scene) :
  (width <> height ->
   create_dataset width height grid_range end_id scenes
   = (mkState 0 [], Raised (Exception not_square)))
  /\ (width = height ->
      square_size width height = Ok width
      /\ forall msg,
           snd (create_dataset width height grid_range end_id scenes)
           <> Raised (Exception msg)).
Proof.
  split.
  - intro Hne. unfold create_dataset, square_size.
    destruct (Z.eqb_spec width height); [contradiction | reflexivity].
  - intros <-. unfold create_dataset, square_size. rewrite Z.eqb_refl.
    split; [reflexivity | ].
    unfold fdiv. destruct (Req_dec_T (IZR width) 0); [cbn; discriminate | ].
    apply run_loop_flow. intros scene st.
    apply run_loop_flow. intros sample st'.
    apply run_loop_flow. intros fr st''.
    apply frame_step_flow.
Qed.

Lemma square_grid_check_witness :
  create_dataset 672 640 70 None
    [[[mkFrame cube_cloud [cube_box "vehicle.car" 0]]]]
  = (mkState 0 [], Raised (Exception not_square))
  /\ square_size 672 672 = Ok 672%Z.
Proof.
  split.
  - apply (proj1 (square_grid_check 672 640 70 None
                    [[[mkFrame cube_cloud [cube_box "vehicle.car" 0]]]])).
    lia.
  - apply (proj2 (square_grid_check 672 672 70 None
                    [[[mkFrame cube_cloud [cube_box "vehicle.car" 0]]]])).
    reflexivity.
Defined.

(** ** Sanity checks of the model *)

Example classify_table :
  classify "vehicle.car" = Ok (Some 1%Z)
  /\ classify "vehicle.truck" = Ok (Some 2%Z)
  /\ classify "vehicle.bus.rigid" = Ok (Some 2%Z)
  /\ classify "vehicle.bicycle" = Ok (Some 3%Z)
  /\ classify "human.pedestrian.adult" = Ok (Some 4%Z)
  /\ classify "movable_object.barrier" = Ok None
  /\ classify "vehicle.foo" = Ok (Some 0%Z)
  /\ classify "vehicle" = Err IndexError.
Proof. repeat split; reflexivity. Qed.

Example split_dot_examples :
  split_dot "a..b" = ["a"; ""; "b"]%string
  /\ split_dot "" = [""%string]
  /\ split_dot "human.pedestrian.adult" = ["human"; "pedestrian"; "adult"]%string.
Proof. repeat split; reflexivity. Qed.

(** A square 2 x 2 run over one frame with one car: the grid is allocated,
    the box rasterised, the result saved under id 0, and cell (0, 0) carries
    the class id 1. *)
Example one_frame_run :
  exists g',
    create_dataset 2 2 70 None
      [[[mkFrame cube_cloud [cube_box "vehicle.car" 0]]]]
    = (mkState 1 [Allocated 2; Rasterised "vehicle.car" 1; Saved 0 g'], Next)
    /\ g' 0%Z 0%Z 4%nat = 1
    /\ g' 1%Z 1%Z 4%nat = 0.
Proof.
  destruct (generate_spec 2 cube_corners (footprint cube_corners)
              (mean2d (footprint cube_corners)) cube_cloud
              (height_of cube_corners) 1 0 zeros)
    as [g' [Hrun Hat]]; [lia | apply cos_0_nonzero | ].
  exists g'. split; [ | split].
  - unfold create_dataset, square_size. cbn [Z.eqb Pos.eqb].
    rewrite fdiv_ok by lra.
    cbn [run_loop frame_step Z.ltb Z.compare pc_points_of boxes_of boxes_loop
         log data_id].
    assert (Hp : process_box 2 cube_cloud (cube_box "vehicle.car" 0) zeros
                 = Ok g') by exact Hrun.
    rewrite Hp. reflexivity.
  - rewrite Hat, cube_not_sparse, cube_written. reflexivity.
  - rewrite Hat.
    assert (Hw : written 2 (footprint cube_corners) 1 1 = false).
    { unfold written, candidate, search_area_left_idx. rewrite cube_left.
      assert (H34 : F2I 34 70 (inv_res 2) = 0%Z)
        by (unfold F2I, inv_res; apply Zfloor_eq; lra).
      rewrite H34. cbn. rewrite !andb_false_r. reflexivity. }
    rewrite Hw, andb_false_r. reflexivity.
Qed.

(** * Further properties *)

(** ** The label chain *)

Lemma split_dot_nonempty (s : string) : split_dot s <> [].
Proof.
  destruct s as [ | ch rest]; cbn; [discriminate | ].
  destruct (Ascii.eqb ch "."%char); [discriminate | ].
  destruct (split_dot rest); discriminate.
Qed.

Lemma split_dot_no_dot (s : string) : no_dot s = true -> split_dot s = [s].
Proof.
  induction s as [ | ch rest IH]; cbn; intro H; [reflexivity | ].
  apply andb_prop in H. destruct H as [Hc Hr].
  destruct (Ascii.eqb ch "."%char); [discriminate | ].
  rewrite (IH Hr). reflexivity.
Qed.

Lemma split_dot_single (s t : string) :
  split_dot s = [t] -> t = s /\ no_dot s = true.
Proof.
  revert t. induction s as [ | ch rest IH]; cbn; intros t H.
  - injection H as <-. auto.
  - destruct (Ascii.eqb ch "."%char) eqn:E.
    + injection H as _ H. exfalso. exact (split_dot_nonempty _ H).
    + destruct (split_dot rest) as [ | tok toks] eqn:S.
      * exfalso. exact (split_dot_nonempty _ S).
      * injection H as <- ->. destruct (IH tok eq_refl) as [-> Hn].
        rewrite Hn. auto.
Qed.

Lemma split_dot_app (s1 s2 : string) :
  split_dot (s1 ++ String "."%char s2) = split_dot s1 ++ split_dot s2.
Proof.
  induction s1 as [ | ch rest IH]; cbn.
  - reflexivity.
  - rewrite IH. destruct (Ascii.eqb ch "."%char); [reflexivity | ].
    destruct (split_dot rest) as [ | tok toks] eqn:S.
    + exfalso. exact (split_dot_nonempty _ S).
    + reflexivity.
Qed.

Lemma classify_range (nm : string) (l : Z) :
  classify nm = Ok (Some l) -> (0 <= l <= 4)%Z.
Proof.
  unfold classify, index.
  destruct (nth_error (split_dot nm) 0) as [tok0 | ]; cbn [bind];
    [ | discriminate].
  destruct (String.eqb tok0 "vehicle").
  - destruct (nth_error (split_dot nm) 1) as [tok1 | ]; cbn [bind];
      [ | discriminate].
    intro H. injection H as <-. unfold vehicle_label.
    repeat match goal with
           | |- context [String.eqb ?a ?b] => destruct (String.eqb a b)
           end; lia.
  - destruct (String.eqb tok0 "human"); [ | discriminate].
    intro H. injection H as <-. lia.
Qed.

Lemma classify_err_inv (nm : string) (e : Error) :
  classify nm = Err e -> nm = "vehicle"%string /\ e = IndexError.
Proof.
  intro H. pose proof (classify_error_kind _ _ H) as ->.
  split; [ | reflexivity].
  unfold classify, index in H.
  destruct (split_dot nm) as [ | tok0 [ | tok1 toks]] eqn:S; cbn in H.
  - exfalso. exact (split_dot_nonempty _ S).
  - destruct (String.eqb_spec tok0 "vehicle") as [-> | _].
    + apply split_dot_single in S. destruct S as [<- _]. reflexivity.
    + destruct (String.eqb tok0 "human"); discriminate.
  - destruct (String.eqb tok0 "vehicle"); [discriminate | ].
    destruct (String.eqb tok0 "human"); discriminate.
Qed.

(** X1: the only category string on which the label chain raises is
    ["vehicle"] itself (no second token to index), and what it raises is
    [IndexError]. *)
Theorem classify_raises_only_on_bare_vehicle (nm : string) (e : Error) :
  classify nm = Err e <-> nm = "vehicle"%string /\ e = IndexError.
Proof.
  split.
  - apply classify_err_inv.
  - intros [-> ->]. reflexivity.
Qed.

(** X2: in the box loop of [create_dataset] a box with fewer than 4 enclosed
    points leaves the grid as it was whatever its category: every label the
    chain can produce (0 to 4) is one of the five early returns.  The one
    name that raises instead is ["vehicle"]. *)
Theorem sparse_box_is_skipped_for_every_category (size : Z)
    (pts : list Point4) (box : Box) (g : Grid) :
  size <> 0%Z ->
  (num_points (corners box) pts < 4)%Z ->
  name box <> "vehicle"%string ->
  process_box size pts box g = Ok g.
Proof.
  intros Hs Hn Hname. unfold process_box.
  destruct (classify (name box)) as [[label | ] | e] eqn:Hc; cbn [bind].
  - apply generate_skip; [exact Hs | ].
    pose proof (classify_range _ _ Hc) as Hl.
    unfold sparse_skip. repeat (apply andb_true_intro; split);
      first [apply Z.ltb_lt | apply Z.leb_le]; lia.
  - reflexivity.
  - exfalso. apply Hname.
    apply (proj1 (classify_err_inv _ _ Hc)).
Qed.

Lemma sparse_box_is_skipped_for_every_category_witness :
  process_box 2 [cube_point; cube_point] (cube_box "human.pedestrian.adult" 0)
    zeros
  = Ok zeros.
Proof.
  apply (sparse_box_is_skipped_for_every_category 2 [cube_point; cube_point]
           (cube_box "human.pedestrian.adult" 0) zeros).
  - lia.
  - assert (H : (num_points cube_corners [cube_point; cube_point] <= 2)%Z).
    { unfold num_points, count_nonzero, points_in_box. cbn [map filter].
      destruct (point_in_box cube_corners (xyz cube_point)); cbn; lia. }
    cbn [corners cube_box]. lia.
  - discriminate.
Defined.

(** X3: only the first two tokens of a category count.  Any name starting
    with [human.] gets label 4, and [vehicle.<tok>.<rest>] gets the label of
    [vehicle.<tok>] whatever follows the second dot. *)
Theorem classify_reads_two_tokens (tok rest : string) :
  no_dot tok = true ->
  classify ("human." ++ rest) = Ok (Some 4%Z)
  /\ classify ("vehicle." ++ tok) = Ok (Some (vehicle_label tok))
  /\ classify ("vehicle." ++ tok ++ String "."%char rest)
     = Ok (Some (vehicle_label tok)).
Proof.
  intro Hn.
  assert (Hh : split_dot ("human." ++ rest) = "human"%string :: split_dot rest)
    by (apply (split_dot_app "human" rest)).
  assert (Hv : forall s, split_dot ("vehicle." ++ s)
                         = "vehicle"%string :: split_dot s)
    by (intro s; apply (split_dot_app "vehicle" s)).
  split; [ | split].
  - unfold classify, index. rewrite Hh. reflexivity.
  - unfold classify, index. rewrite Hv, (split_dot_no_dot _ Hn). reflexivity.
  - unfold classify, index.
    rewrite Hv, split_dot_app, (split_dot_no_dot _ Hn). reflexivity.
Qed.

Lemma classify_reads_two_tokens_witness :
  classify ("human." ++ "bendy") = Ok (Some 4%Z)
  /\ classify ("vehicle." ++ "bus") = Ok (Some (vehicle_label "bus"))
  /\ classify ("vehicle." ++ "bus" ++ String "."%char "bendy")
     = Ok (Some (vehicle_label "bus")).
Proof.
  apply (classify_reads_two_tokens "bus" "bendy").
  reflexivity.
Defined.

(** ** Grid indexing, the other way round *)

Lemma F2I_bounds (v R0 s : R) (z : Z) :
  (z <= F2I v R0 s)%Z <-> IZR z <= (R0 - v) * s.
Proof.
  unfold F2I. destruct (Zfloor_bound ((R0 - v) * s)) as [Hlo Hhi]. split.
  - intro H. apply IZR_le in H. lra.
  - apply Zfloor_lub.
Qed.

(** X4: going from a cell index to the centre of the cell and back gives the
    index again, for every range [R0 > 0], grid size [N > 0] and index [k];
    and the centre of a cell of the grid lies strictly inside the range. *)
Theorem cell_index_round_trip (R0 : R) (N k : Z) :
  0 < R0 -> (0 < N)%Z ->
  exists w,
    Pixel2pc k (IZR N) R0 = Ok w
    /\ F2I w R0 (0.5 * IZR N / R0) = k
    /\ ((0 <= k < N)%Z -> - R0 < w < R0).
Proof.
  intros HR HN.
  assert (Hn : 0 < IZR N) by (apply IZR_lt; exact HN).
  assert (Hin : 0 < / IZR N) by (apply Rinv_0_lt_compat; exact Hn).
  unfold Pixel2pc. rewrite fdiv_ok by lra. cbn [bind].
  eexists. split; [reflexivity | ]. split.
  - unfold F2I. apply Zfloor_eq.
    replace ((R0 - (R0 - (IZR k + 0.5) * (2 * R0 / IZR N)))
             * (0.5 * IZR N / R0))
      with (IZR k + / 2) by (rewrite half_inv; field; lra).
    lra.
  - intros [Hk0 HkN]. apply IZR_le in Hk0.
    assert (Hk1 : IZR k + 1 <= IZR N).
    { rewrite <- plus_IZR. apply IZR_le. lia. }
    set (c := 2 * R0 / IZR N).
    assert (Hc : 0 < c) by (unfold c, Rdiv; nra).
    assert (HcN : c * IZR N = 2 * R0) by (unfold c; field; lra).
    rewrite half_inv. split; nra.
Qed.

Lemma cell_index_round_trip_witness :
  exists w,
    Pixel2pc 3 672 70 = Ok w
    /\ F2I w 70 (0.5 * 672 / 70) = 3%Z
    /\ ((0 <= 3 < 672)%Z -> - 70 < w < 70).
Proof.
  apply (cell_index_round_trip 70 672 3).
  - lra.
  - lia.
Defined.



(** ** The 2D test and the search rectangle *)

(** A weighted mean of 0, [a], [a + c] and [c] is not below a common lower
    bound of the four. *)
Lemma weighted_lower (Ni Nj iv jv a c m X : R) :
  0 < Ni -> 0 < Nj -> 0 <= iv <= Ni -> 0 <= jv <= Nj ->
  X * (Ni * Nj) = iv * a * Nj + jv * c * Ni ->
  m <= 0 -> m <= a -> m <= a + c -> m <= c ->
  m <= X.
Proof.
  intros HNi HNj Hi Hj HX H0 Ha Hac Hc.
  assert (P1 : 0 <= (Ni - iv) * (Nj - jv) * (0 - m))
    by (apply Rmult_le_pos; [apply Rmult_le_pos | ]; lra).
  assert (P2 : 0 <= iv * (Nj - jv) * (a - m))
    by (apply Rmult_le_pos; [apply Rmult_le_pos | ]; lra).
  assert (P3 : 0 <= iv * jv * (a + c - m))
    by (apply Rmult_le_pos; [apply Rmult_le_pos | ]; lra).
  assert (P4 : 0 <= (Ni - iv) * jv * (c - m))
    by (apply Rmult_le_pos; [apply Rmult_le_pos | ]; lra).
  assert (HN : 0 < Ni * Nj) by (apply Rmult_lt_0_compat; assumption).
  assert (Hsum : 0 <= (X - m) * (Ni * Nj)).
  { assert (E : (X - m) * (Ni * Nj) = X * (Ni * Nj) - m * (Ni * Nj)) by ring.
    rewrite E, HX.
    replace (iv * a * Nj + jv * c * Ni - m * (Ni * Nj))
      with ((Ni - iv) * (Nj - jv) * (0 - m) + iv * (Nj - jv) * (a - m)
            + iv * jv * (a + c - m) + (Ni - iv) * jv * (c - m))
      by ring.
    lra. }
  destruct (Rle_lt_dec m X) as [ | Hlt]; [assumption | ].
  exfalso.
  assert (0 < (m - X) * (Ni * Nj)) by (apply Rmult_lt_0_compat; lra).
  lra.
Qed.

Lemma weighted_upper (Ni Nj iv jv a c m X : R) :
  0 < Ni -> 0 < Nj -> 0 <= iv <= Ni -> 0 <= jv <= Nj ->
  X * (Ni * Nj) = iv * a * Nj + jv * c * Ni ->
  0 <= m -> a <= m -> a + c <= m -> c <= m ->
  X <= m.
Proof.
  intros HNi HNj Hi Hj HX H0 Ha Hac Hc.
  assert (H : - m <= - X).
  { apply (weighted_lower Ni Nj iv jv (- a) (- c)); try assumption; lra. }
  lra.
Qed.

(** In the plane, a vector is recovered from its projections onto two
    orthogonal directions. *)
Lemma planar_decomposition (a b c d x y : R) :
  a * c + b * d = 0 ->
  x * ((a * a + b * b) * (c * c + d * d))
  = (a * x + b * y) * a * (c * c + d * d)
    + (c * x + d * y) * c * (a * a + b * b)
  /\ y * ((a * a + b * b) * (c * c + d * d))
     = (a * x + b * y) * b * (c * c + d * d)
       + (c * x + d * y) * d * (a * a + b * b).
Proof.
  intro H. split.
  - replace ((a * x + b * y) * a * (c * c + d * d)
             + (c * x + d * y) * c * (a * a + b * b))
      with (x * ((a * a + b * b) * (c * c + d * d))
            + (a * c + b * d) * (x * (a * c - b * d) + y * (b * c + a * d)))
      by ring.
    rewrite H. ring.
  - replace ((a * x + b * y) * b * (c * c + d * d)
             + (c * x + d * y) * d * (a * a + b * b))
      with (y * ((a * a + b * b) * (c * c + d * d))
            + (a * c + b * d) * (x * (b * c + a * d) + y * (b * d - a * c)))
      by ring.
    rewrite H. ring.
Qed.

Lemma box2d_left_le (q : Quad) :
  box2d_left q <= ux (q0 q) /\ box2d_left q <= ux (q1 q)
  /\ box2d_left q <= ux (q2 q) /\ box2d_left q <= ux (q3 q).
Proof.
  unfold box2d_left.
  pose proof (Rmin_l (Rmin (Rmin (ux (q0 q)) (ux (q1 q))) (ux (q2 q))) (ux (q3 q))).
  pose proof (Rmin_r (Rmin (Rmin (ux (q0 q)) (ux (q1 q))) (ux (q2 q))) (ux (q3 q))).
  pose proof (Rmin_l (Rmin (ux (q0 q)) (ux (q1 q))) (ux (q2 q))).
  pose proof (Rmin_r (Rmin (ux (q0 q)) (ux (q1 q))) (ux (q2 q))).
  pose proof (Rmin_l (ux (q0 q)) (ux (q1 q))).
  pose proof (Rmin_r (ux (q0 q)) (ux (q1 q))).
  repeat split; lra.
Qed.

Lemma box2d_bottom_le (q : Quad) :
  box2d_bottom q <= uy (q0 q) /\ box2d_bottom q <= uy (q1 q)
  /\ box2d_bottom q <= uy (q2 q) /\ box2d_bottom q <= uy (q3 q).
Proof.
  unfold box2d_bottom.
  pose proof (Rmin_l (Rmin (Rmin (uy (q0 q)) (uy (q1 q))) (uy (q2 q))) (uy (q3 q))).
  pose proof (Rmin_r (Rmin (Rmin (uy (q0 q)) (uy (q1 q))) (uy (q2 q))) (uy (q3 q))).
  pose proof (Rmin_l (Rmin (uy (q0 q)) (uy (q1 q))) (uy (q2 q))).
  pose proof (Rmin_r (Rmin (uy (q0 q)) (uy (q1 q))) (uy (q2 q))).
  pose proof (Rmin_l (uy (q0 q)) (uy (q1 q))).
  pose proof (Rmin_r (uy (q0 q)) (uy (q1 q))).
  repeat split; lra.
Qed.

Lemma box2d_right_ge (q : Quad) :
  ux (q0 q) <= box2d_right q /\ ux (q1 q) <= box2d_right q
  /\ ux (q2 q) <= box2d_right q /\ ux (q3 q) <= box2d_right q.
Proof.
  unfold box2d_right.
  pose proof (Rmax_l (Rmax (Rmax (ux (q0 q)) (ux (q1 q))) (ux (q2 q))) (ux (q3 q))).
  pose proof (Rmax_r (Rmax (Rmax (ux (q0 q)) (ux (q1 q))) (ux (q2 q))) (ux (q3 q))).
  pose proof (Rmax_l (Rmax (ux (q0 q)) (ux (q1 q))) (ux (q2 q))).
  pose proof (Rmax_r (Rmax (ux (q0 q)) (ux (q1 q))) (ux (q2 q))).
  pose proof (Rmax_l (ux (q0 q)) (ux (q1 q))).
  pose proof (Rmax_r (ux (q0 q)) (ux (q1 q))).
  repeat split; lra.
Qed.

Lemma box2d_top_ge (q : Quad) :
  uy (q0 q) <= box2d_top q /\ uy (q1 q) <= box2d_top q
  /\ uy (q2 q) <= box2d_top q /\ uy (q3 q) <= box2d_top q.
Proof.
  unfold box2d_top.
  pose proof (Rmax_l (Rmax (Rmax (uy (q0 q)) (uy (q1 q))) (uy (q2 q))) (uy (q3 q))).
  pose proof (Rmax_r (Rmax (Rmax (uy (q0 q)) (uy (q1 q))) (uy (q2 q))) (uy (q3 q))).
  pose proof (Rmax_l (Rmax (uy (q0 q)) (uy (q1 q))) (uy (q2 q))).
  pose proof (Rmax_r (Rmax (uy (q0 q)) (uy (q1 q))) (uy (q2 q))).
  pose proof (Rmax_l (uy (q0 q)) (uy (q1 q))).
  pose proof (Rmax_r (uy (q0 q)) (uy (q1 q))).
  repeat split; lra.
Qed.

Lemma points_in_box2d_iff (q : Quad) (p : vec3) :
  points_in_box2d q p = true
  <-> 0 <= dot2 (sub2 (q1 q) (q0 q)) (sub2 (xy p) (q0 q))
        <= dot2 (sub2 (q1 q) (q0 q)) (sub2 (q1 q) (q0 q))
      /\ 0 <= dot2 (sub2 (q3 q) (q0 q)) (sub2 (xy p) (q0 q))
           <= dot2 (sub2 (q3 q) (q0 q)) (sub2 (q3 q) (q0 q)).
Proof.
  unfold points_in_box2d. rewrite !andb_true_iff, !Rleb_true. tauto.
Qed.

(** A point the 2D test accepts lies in the bounding rectangle of a
    rectangular footprint. *)
Lemma accepted_in_bounds (q : Quad) (p : vec3) :
  rectangle q ->
  points_in_box2d q p = true ->
  box2d_left q <= vx p <= box2d_right q
  /\ box2d_bottom q <= vy p <= box2d_top q.
Proof.
  intros [H2 [Horth [Ni Nj]]] Hp.
  apply points_in_box2d_iff in Hp. destruct Hp as [Hi Hj].
  destruct (box2d_left_le q) as [L0 [L1 [L2 L3]]].
  destruct (box2d_right_ge q) as [R0 [R1 [R2 R3]]].
  destruct (box2d_bottom_le q) as [B0 [B1 [B2 B3]]].
  destruct (box2d_top_ge q) as [T0 [T1 [T2 T3]]].
  rewrite H2 in L2, R2, B2, T2. cbn [ux uy] in L2, R2, B2, T2.
  unfold dot2, sub2, xy in *. cbn [ux uy] in *.
  set (a := ux (q1 q) - ux (q0 q)) in *.
  set (b := uy (q1 q) - uy (q0 q)) in *.
  set (c := ux (q3 q) - ux (q0 q)) in *.
  set (d := uy (q3 q) - uy (q0 q)) in *.
  set (x := vx p - ux (q0 q)) in *.
  set (y := vy p - uy (q0 q)) in *.
  assert (Pi : 0 < a * a + b * b) by nra.
  assert (Pj : 0 < c * c + d * d) by nra.
  destruct (planar_decomposition a b c d x y Horth) as [Dx Dy].
  assert (Xlo : box2d_left q - ux (q0 q) <= x).
  { apply (weighted_lower _ _ _ _ a c _ _ Pi Pj Hi Hj Dx);
      unfold a, c; lra. }
  assert (Xhi : x <= box2d_right q - ux (q0 q)).
  { apply (weighted_upper _ _ _ _ a c _ _ Pi Pj Hi Hj Dx);
      unfold a, c; lra. }
  assert (Ylo : box2d_bottom q - uy (q0 q) <= y).
  { apply (weighted_lower _ _ _ _ b d _ _ Pi Pj Hi Hj Dy);
      unfold b, d; lra. }
  assert (Yhi : y <= box2d_top q - uy (q0 q)).
  { apply (weighted_upper _ _ _ _ b d _ _ Pi Pj Hi Hj Dy);
      unfold b, d; lra. }
  unfold x, y in *. repeat split; lra.
Qed.

(** X6: for a rectangular footprint the 2D test accepts the mean of the four
    corners (at any height), accepts only points inside the footprint's
    axis-aligned bounding rectangle, and so rejects every point outside
    it. *)
Theorem membership_test_2d (q : Quad) :
  rectangle q ->
  (forall z, points_in_box2d q (mk3 (ux (mean2d q)) (uy (mean2d q)) z) = true)
  /\ (forall p,
         points_in_box2d q p = true ->
         box2d_left q <= vx p <= box2d_right q
         /\ box2d_bottom q <= vy p <= box2d_top q)
  /\ (forall p,
         vx p < box2d_left q \/ box2d_right q < vx p
         \/ vy p < box2d_bottom q \/ box2d_top q < vy p ->
         points_in_box2d q p = false).
Proof.
  intro Hrect. split; [ | split].
  - intro z. destruct Hrect as [H2 [Horth [Ni Nj]]].
    apply points_in_box2d_iff.
    unfold mean2d, xy. rewrite H2.
    unfold dot2, sub2 in *. cbn [ux uy vx vy] in *.
    set (a := ux (q1 q) - ux (q0 q)) in *.
    set (b := uy (q1 q) - uy (q0 q)) in *.
    set (c := ux (q3 q) - ux (q0 q)) in *.
    set (d := uy (q3 q) - uy (q0 q)) in *.
    replace ((ux (q0 q) + ux (q1 q) + (ux (q1 q) + ux (q3 q) - ux (q0 q))
              + ux (q3 q)) / 4 - ux (q0 q))
      with ((a + c) / 2) by (unfold a, c; lra).
    replace ((uy (q0 q) + uy (q1 q) + (uy (q1 q) + uy (q3 q) - uy (q0 q))
              + uy (q3 q)) / 4 - uy (q0 q))
      with ((b + d) / 2) by (unfold b, d; lra).
    assert (Pi : 0 < a * a + b * b) by nra.
    assert (Pj : 0 < c * c + d * d) by nra.
    repeat split; nra.
  - intros p Hp. apply accepted_in_bounds; assumption.
  - intros p Hout.
    destruct (points_in_box2d q p) eqn:E; [ | reflexivity].
    exfalso. destruct (accepted_in_bounds q p Hrect E) as [[? ?] [? ?]].
    destruct Hout as [? | [? | [? | ?]]]; lra.
Qed.

Lemma cube_rectangle : rectangle (footprint cube_corners).
Proof.
  unfold rectangle. unfold_geometry.
  split; [f_equal; lra | ]. repeat split; lra.
Qed.

Lemma membership_test_2d_witness :
  points_in_box2d (footprint cube_corners)
    (mk3 (ux (mean2d (footprint cube_corners)))
         (uy (mean2d (footprint cube_corners))) 0) = true
  /\ points_in_box2d (footprint cube_corners) (mk3 37 35 0) = false.
Proof.
  destruct (membership_test_2d (footprint cube_corners) cube_rectangle)
    as [Hc [_ Hout]].
  split; [apply Hc | ].
  apply Hout. right. left. rewrite cube_right. cbn. lra.
Defined.

Lemma cell_center_scaled (size k : Z) :
  (0 < size)%Z ->
  (70 - cell_center size k) * inv_res size = IZR k + / 2.
Proof.
  intro Hs. assert (0 < IZR size) by (apply IZR_lt; exact Hs).
  unfold cell_center, inv_res. rewrite half_inv. field. lra.
Qed.

Lemma inv_res_pos (size : Z) : (0 < size)%Z -> 0 < inv_res size.
Proof.
  intro Hs. assert (0 < IZR size) by (apply IZR_lt; exact Hs).
  unfold inv_res. lra.
Qed.

(** A cell whose centre is at or beyond [lo] has an index up to [F2I lo], and
    one whose centre is at or before [hi] has an index from [F2I hi] on. *)
Lemma index_of_center_bounds (size k : Z) (lo hi : R) :
  (0 < size)%Z ->
  lo <= cell_center size k <= hi ->
  (F2I hi 70 (inv_res size) <= k <= F2I lo 70 (inv_res size))%Z.
Proof.
  intros Hs [Hlo Hhi].
  pose proof (inv_res_pos size Hs) as Hr.
  pose proof (cell_center_scaled size k Hs) as Hc.
  split.
  - unfold F2I.
    destruct (Zfloor_bound ((70 - hi) * inv_res size)) as [Hf _].
    assert (Hle : (70 - hi) * inv_res size <= (70 - cell_center size k) * inv_res size)
      by (apply Rmult_le_compat_r; lra).
    assert (Hlt : IZR (Zfloor ((70 - hi) * inv_res size)) < IZR (k + 1)).
    { rewrite plus_IZR. lra. }
    apply lt_IZR in Hlt. lia.
  - apply F2I_bounds.
    assert (Hle : (70 - cell_center size k) * inv_res size <= (70 - lo) * inv_res size)
      by (apply Rmult_le_compat_r; lra).
    lra.
Qed.

Lemma mask_is_candidate (size : Z) (box2d : Quad) (i j : Z) :
  rectangle box2d -> (0 < size)%Z ->
  cell_mask size box2d i j = true ->
  candidate size box2d i j = true.
Proof.
  intros Hrect Hs Hm. unfold cell_mask in Hm.
  destruct (accepted_in_bounds _ _ Hrect Hm) as [Hx Hy]. cbn [vx vy] in Hx, Hy.
  pose proof (index_of_center_bounds size i _ _ Hs Hx) as Hi.
  pose proof (index_of_center_bounds size j _ _ Hs Hy) as Hj.
  unfold candidate, search_area_right_idx, search_area_left_idx,
    search_area_top_idx, search_area_bottom_idx.
  repeat (apply andb_true_intro; split);
    first [apply Z.leb_le | apply Z.ltb_lt]; lia.
Qed.

(** X7: the search rectangle loses no cell.  For a rectangular footprint on
    a grid of positive size, every cell whose centre passes the 2D test is
    visited by the two loops, so a run that reaches the loop writes every
    cell of the grid whose centre lies in the footprint. *)
Theorem search_rectangle_is_complete (size : Z) (cs : Corners) (box2d : Quad)
    (ctr : vec2) (pts : list Point4) (h : R) (l : Z) (y : R) (g : Grid) :
  rectangle box2d -> (0 < size)%Z ->
  (forall i j, cell_mask size box2d i j = true ->
               candidate size box2d i j = true)
  /\ (sparse_skip cs pts l = false -> cos y <> 0 ->
      exists g',
        generate_out_feature size cs box2d ctr pts h l y g = Ok g'
        /\ forall i j,
             in_grid size i j = true ->
             points_in_box2d box2d
               (mk3 (cell_center size i) (cell_center size j) 0) = true ->
             g' i j 0%nat = 1 /\ g' i j 4%nat = IZR l).
Proof.
  intros Hrect Hs. split.
  - intros i j. apply mask_is_candidate; assumption.
  - intros Hk Hc.
    destruct (generate_spec size cs box2d ctr pts h l y g)
      as [g' [Hrun Hat]]; [lia | exact Hc | ].
    exists g'. split; [exact Hrun | ].
    intros i j Hin Hm.
    assert (Hw : written size box2d i j = true).
    { unfold written. rewrite (mask_is_candidate _ _ _ _ Hrect Hs Hm), Hin.
      exact Hm. }
    rewrite !Hat, Hk, Hw. split; reflexivity.
Qed.

Lemma search_rectangle_is_complete_witness :
  exists g',
    generate_out_feature 2 cube_corners (footprint cube_corners)
      (mean2d (footprint cube_corners)) cube_cloud (height_of cube_corners)
      1 0 zeros = Ok g'
    /\ g' 0%Z 0%Z 0%nat = 1 /\ g' 0%Z 0%Z 4%nat = 1.
Proof.
  destruct (search_rectangle_is_complete 2 cube_corners
              (footprint cube_corners) (mean2d (footprint cube_corners))
              cube_cloud (height_of cube_corners) 1 0 zeros
              cube_rectangle ltac:(lia))
    as [_ Hall].
  destruct (Hall (cube_not_sparse 1) cos_0_nonzero) as [g' [Hrun Hcells]].
  exists g'. split; [exact Hrun | ].
  apply Hcells; [reflexivity | apply cube_mask].
Defined.

(** ** What a written cell holds *)

Lemma scale_of_range (m d : R) :
  0 <= m -> 0 <= scale_of m d <= 1 /\ Rabs d * scale_of m d <= m.
Proof.
  intro Hm. unfold scale_of.
  destruct (Rlt_dec m (Rabs d)) as [Hlt | Hge].
  - assert (Hd : 0 < Rabs d) by lra.
    assert (Hi : 0 < / Rabs d) by (apply Rinv_0_lt_compat; exact Hd).
    assert (E : Rabs d * (m / Rabs d) = m) by (field; lra).
    assert (L : m / Rabs d <= 1).
    { apply (Rmult_le_reg_l (Rabs d)); [exact Hd | ]. rewrite E. lra. }
    assert (P : 0 <= m / Rabs d) by (unfold Rdiv; nra).
    lra.
  - pose proof (Rabs_pos d). lra.
Qed.

Lemma clamped_offset_bound (m dx dy : R) :
  0 <= m ->
  Rabs (dx * -1 * Rmin (scale_of m dx) (scale_of m dy)) <= m
  /\ Rabs (dy * -1 * Rmin (scale_of m dx) (scale_of m dy)) <= m.
Proof.
  intro Hm.
  destruct (scale_of_range m dx Hm) as [[X0 X1] XB].
  destruct (scale_of_range m dy Hm) as [[Y0 Y1] YB].
  pose proof (Rmin_l (scale_of m dx) (scale_of m dy)) as Ml.
  pose proof (Rmin_r (scale_of m dx) (scale_of m dy)) as Mr.
  assert (M0 : 0 <= Rmin (scale_of m dx) (scale_of m dy))
    by (apply Rmin_glb; assumption).
  pose proof (Rabs_pos dx) as Ax. pose proof (Rabs_pos dy) as Ay.
  rewrite !Rabs_mult, (Rabs_pos_eq _ M0).
  replace (Rabs (-1)) with 1
    by (unfold Rabs; destruct (Rcase_abs (-1)); lra).
  split; nra.
Qed.

(** X8: the clamp bounds what reaches channels 1 and 2.  In every cell a run
    writes, the two instance offsets are at most two cell widths,
    [2 * (2 * 70 / size)], in absolute value, however far the cell centre is
    from the centre of the box. *)
Theorem written_offsets_are_bounded (size : Z) (cs : Corners) (box2d : Quad)
    (ctr : vec2) (pts : list Point4) (h : R) (l : Z) (y : R) (g : Grid)
    (i j : Z) :
  (0 < size)%Z ->
  sparse_skip cs pts l = false ->
  cos y <> 0 ->
  written size box2d i j = true ->
  exists g',
    generate_out_feature size cs box2d ctr pts h l y g = Ok g'
    /\ Rabs (g' i j 1%nat) <= 2 * (2 * 70 / IZR size)
    /\ Rabs (g' i j 2%nat) <= 2 * (2 * 70 / IZR size).
Proof.
  intros Hs Hk Hc Hw.
  destruct (generate_spec size cs box2d ctr pts h l y g)
    as [g' [Hrun Hat]]; [lia | exact Hc | ].
  exists g'. split; [exact Hrun | ].
  rewrite !Hat, Hk, Hw. cbn [negb andb Nat.ltb Nat.leb channel_value].
  unfold offset_scale. rewrite <- (max_len_val_two_cells size Hs).
  apply clamped_offset_bound. apply max_len_val_nonneg.
Qed.

Lemma written_offsets_are_bounded_witness :
  exists g',
    generate_out_feature 2 cube_corners (footprint cube_corners)
      (mk2 1000 (-1000)) cube_cloud (height_of cube_corners) 1 0 zeros = Ok g'
    /\ Rabs (g' 0%Z 0%Z 1%nat) <= 2 * (2 * 70 / 2)
    /\ Rabs (g' 0%Z 0%Z 2%nat) <= 2 * (2 * 70 / 2).
Proof.
  apply (written_offsets_are_bounded 2 cube_corners (footprint cube_corners)
           (mk2 1000 (-1000)) cube_cloud (height_of cube_corners) 1 0 zeros
           0 0).
  - lia.
  - apply cube_not_sparse.
  - apply cos_0_nonzero.
  - apply cube_written.
Defined.

Lemma doubled_normalized_yaw (y : R) :
  cos y <> 0 ->
  cos (atan (sin y / cos y) * 2) = cos (2 * y)
  /\ sin (atan (sin y / cos y) * 2) = sin (2 * y).
Proof.
  intro Hc. set (t := sin y / cos y). set (a := atan t).
  assert (Hca : 0 < cos a).
  { apply cos_gt_0; pose proof (atan_bound t); unfold a; lra. }
  assert (Hsa : sin a = t * cos a).
  { pose proof (tan_atan t) as Ht. fold a in Ht. unfold tan in Ht.
    rewrite <- Ht. field. lra. }
  assert (Hsy : sin y = t * cos y) by (unfold t; field; exact Hc).
  pose proof (sin2_cos2 a) as Pa. pose proof (sin2_cos2 y) as Py.
  unfold Rsqr in Pa, Py. rewrite Hsa in Pa. rewrite Hsy in Py.
  assert (Hsq : cos a * cos a = cos y * cos y).
  { assert (P : 0 < 1 + t * t) by nra.
    apply (Rmult_eq_reg_r (1 + t * t)); [ | lra]. lra. }
  rewrite (Rmult_comm a 2).
  rewrite !cos_2a, !sin_2a, Hsa, Hsy. split.
  - replace (cos a * cos a - t * cos a * (t * cos a))
      with ((cos a * cos a) * (1 - t * t)) by ring.
    rewrite Hsq. ring.
  - replace (2 * (t * cos a) * cos a) with (2 * t * (cos a * cos a)) by ring.
    rewrite Hsq. ring.
Qed.

(** X9: the normalisation does not change the encoded heading.  Whenever
    [cos yaw <> 0], the pair built from the normalised yaw is
    [(cos (2 yaw), sin (2 yaw))] itself, and these are the values a run
    leaves in channels 5 and 6 of each cell it writes (a point of the unit
    circle). *)
Theorem heading_channels_encode_twice_the_yaw (size : Z) (cs : Corners)
    (box2d : Quad) (ctr : vec2) (pts : list Point4) (h : R) (l : Z) (y : R)
    (g : Grid) :
  cos y <> 0 ->
  (exists n,
      normalized_yaw y = Ok n
      /\ cos (n * 2) = cos (2 * y) /\ sin (n * 2) = sin (2 * y))
  /\ (size <> 0%Z -> sparse_skip cs pts l = false ->
      exists g',
        generate_out_feature size cs box2d ctr pts h l y g = Ok g'
        /\ forall i j,
             written size box2d i j = true ->
             g' i j 5%nat = cos (2 * y)
             /\ g' i j 6%nat = sin (2 * y)
             /\ g' i j 5%nat * g' i j 5%nat + g' i j 6%nat * g' i j 6%nat = 1).
Proof.
  intro Hc. destruct (doubled_normalized_yaw y Hc) as [C S]. split.
  - exists (atan (sin y / cos y)).
    split; [apply normalized_yaw_ok; exact Hc | ]. split; assumption.
  - intros Hs Hk.
    destruct (generate_spec size cs box2d ctr pts h l y g Hs Hc)
      as [g' [Hrun Hat]].
    exists g'. split; [exact Hrun | ].
    intros i j Hw. rewrite !Hat, Hk, Hw.
    cbn [negb andb Nat.ltb Nat.leb channel_value]. rewrite C, S.
    split; [reflexivity | ]. split; [reflexivity | ].
    pose proof (sin2_cos2 (2 * y)) as P. unfold Rsqr in P. lra.
Qed.

Lemma heading_channels_encode_twice_the_yaw_witness :
  exists n,
    normalized_yaw PI = Ok n
    /\ cos (n * 2) = cos (2 * PI) /\ sin (n * 2) = sin (2 * PI).
Proof.
  apply (heading_channels_encode_twice_the_yaw 2 cube_corners
           (footprint cube_corners) (mean2d (footprint cube_corners))
           cube_cloud (height_of cube_corners) 1 PI zeros).
  rewrite cos_PI. lra.
Defined.

(** ** Runs on any yaw, and how boxes compose *)

Lemma for_each_guard {A S : Type} (body : A -> S -> Result S) (e : Error)
    (bad : A -> bool) (xs : list A) :
  (forall x s, body x s = if bad x then Err e else Ok s) ->
  forall s, for_each xs body s = if existsb bad xs then Err e else Ok s.
Proof.
  intro Hb. induction xs as [ | x xs IH]; intro s; cbn; [reflexivity | ].
  rewrite Hb. destruct (bad x); cbn; [reflexivity | apply IH].
Qed.

(** Some candidate cell lies inside the grid. *)
Lemma candidate_in_grid_exists (size : Z) (box2d : Quad) :
  existsb
    (fun i =>
       existsb (fun j => in_grid size i j)
         (range (search_area_top_idx size box2d - 1)
                (search_area_bottom_idx size box2d + 1)))
    (range (search_area_right_idx size box2d - 1)
           (search_area_left_idx size box2d + 1))
  = false ->
  forall i j, candidate size box2d i j = true -> in_grid size i j = false.
Proof.
  intros Hnone i j Hc. unfold candidate in Hc.
  repeat (apply andb_prop in Hc; destruct Hc as [Hc ?]).
  apply Z.leb_le in Hc. apply Z.ltb_lt in H1.
  apply Z.leb_le in H0. apply Z.ltb_lt in H.
  destruct (in_grid size i j) eqn:G; [ | reflexivity].
  exfalso.
  assert (Hex : existsb
                  (fun i =>
                     existsb (fun j => in_grid size i j)
                       (range (search_area_top_idx size box2d - 1)
                              (search_area_bottom_idx size box2d + 1)))
                  (range (search_area_right_idx size box2d - 1)
                         (search_area_left_idx size box2d + 1)) = true).
  { apply existsb_exists. exists i. split; [apply In_range; lia | ].
    apply existsb_exists. exists j. split; [apply In_range; lia | exact G]. }
  rewrite Hex in Hnone. discriminate.
Qed.

(** With [cos yaw = 0] a run that reaches the loop either raises or returns
    the grid it was given, and which of the two does not depend on the
    grid. *)
Lemma generate_zero_cos_exact size cs box2d ctr pts h l y g :
  size <> 0%Z -> sparse_skip cs pts l = false -> cos y = 0 ->
  generate_out_feature size cs box2d ctr pts h l y g
  = if existsb
         (fun i =>
            existsb (fun j => in_grid size i j)
              (range (search_area_top_idx size box2d - 1)
                     (search_area_bottom_idx size box2d + 1)))
         (range (search_area_right_idx size box2d - 1)
                (search_area_left_idx size box2d + 1))
    then Err ZeroDivisionError else Ok g.
Proof.
  intros Hs Hk Hz. rewrite generate_loop by assumption.
  apply for_each_guard. intros i s.
  apply for_each_guard. intros j s'.
  apply cell_body_zero_cos. exact Hz.
Qed.

Lemma generate_ok_size size cs box2d ctr pts h l y g g' :
  generate_out_feature size cs box2d ctr pts h l y g = Ok g' -> size <> 0%Z.
Proof.
  intros Hrun ->. unfold generate_out_feature in Hrun.
  rewrite max_length_zero in Hrun. discriminate.
Qed.

(** The grid a run returns, cell by cell, for any yaw. *)
Lemma generate_cell size cs box2d ctr pts h l y g g' :
  generate_out_feature size cs box2d ctr pts h l y g = Ok g' ->
  forall i j c,
    g' i j c
    = if (negb (sparse_skip cs pts l) && written size box2d i j
          && (c <? 8)%nat)%bool
      then channel_value size ctr h l y i j c
      else g i j c.
Proof.
  intros Hrun i j c.
  pose proof (generate_ok_size _ _ _ _ _ _ _ _ _ _ Hrun) as Hs.
  destruct (Req_dec_T (cos y) 0) as [Hz | Hc].
  - destruct (sparse_skip cs pts l) eqn:Hk.
    + rewrite generate_skip in Hrun by assumption.
      injection Hrun as <-. reflexivity.
    + rewrite generate_zero_cos_exact in Hrun by assumption.
      destruct (existsb _ _) eqn:Hex; [discriminate | ].
      injection Hrun as <-.
      pose proof (candidate_in_grid_exists _ _ Hex i j) as Hout.
      unfold written. destruct (candidate size box2d i j).
      * rewrite (Hout eq_refl). reflexivity.
      * reflexivity.
  - destruct (generate_spec size cs box2d ctr pts h l y g Hs Hc)
      as [g'' [Hrun' Hat]].
    rewrite Hrun in Hrun'. injection Hrun' as <-. apply Hat.
Qed.

(** Whether a run returns does not depend on the grid it starts from. *)
Lemma generate_ok_any_grid size cs box2d ctr pts h l y g g' (g0 : Grid) :
  generate_out_feature size cs box2d ctr pts h l y g = Ok g' ->
  exists g0', generate_out_feature size cs box2d ctr pts h l y g0 = Ok g0'.
Proof.
  intro Hrun.
  pose proof (generate_ok_size _ _ _ _ _ _ _ _ _ _ Hrun) as Hs.
  destruct (Req_dec_T (cos y) 0) as [Hz | Hc].
  - destruct (sparse_skip cs pts l) eqn:Hk.
    + exists g0. apply generate_skip; assumption.
    + rewrite generate_zero_cos_exact in Hrun |- * by assumption.
      destruct (existsb _ _); [discriminate | ].
      exists g0. reflexivity.
  - destruct (generate_spec size cs box2d ctr pts h l y g0 Hs Hc)
      as [g0' [Hrun' _]].
    exists g0'. exact Hrun'.
Qed.

Lemma process_box_cell size pts box g g' :
  process_box size pts box g = Ok g' ->
  forall i j c,
    g' i j c
    = if (box_writes size pts box i j && (c <? 8)%nat)%bool
      then box_value size box i j c
      else g i j c.
Proof.
  unfold process_box, box_writes, box_value.
  destruct (classify (name box)) as [[label | ] | e]; cbn [bind].
  - intro Hrun. apply (generate_cell _ _ _ _ _ _ _ _ _ _ Hrun).
  - intro H. injection H as <-. reflexivity.
  - discriminate.
Qed.

Lemma process_box_ok_any_grid size pts box g g' (g0 : Grid) :
  process_box size pts box g = Ok g' ->
  exists g0', process_box size pts box g0 = Ok g0'.
Proof.
  unfold process_box.
  destruct (classify (name box)) as [[label | ] | e]; cbn [bind].
  - apply generate_ok_any_grid.
  - intros _. exists g0. reflexivity.
  - discriminate.
Qed.

Lemma boxes_loop_cons_ok size pts box rest g lg lg' g' :
  boxes_loop size pts (box :: rest) g lg = (lg', Ok g') ->
  exists g1,
    process_box size pts box g = Ok g1
    /\ boxes_loop size pts rest g1 (lg ++ box_events box) = (lg', Ok g').
Proof.
  cbn [boxes_loop].
  destruct (process_box size pts box g) as [g1 | e]; intro H.
  - exists g1. split; [reflexivity | exact H].
  - discriminate.
Qed.

Lemma boxes_loop_app_ok size pts bs1 bs2 :
  forall g lg lg' g',
    boxes_loop size pts (bs1 ++ bs2) g lg = (lg', Ok g') ->
    exists lg1 g1,
      boxes_loop size pts bs1 g lg = (lg1, Ok g1)
      /\ boxes_loop size pts bs2 g1 lg1 = (lg', Ok g').
Proof.
  induction bs1 as [ | box rest IH]; intros g lg lg' g' H.
  - exists lg, g. split; [reflexivity | exact H].
  - cbn [app] in H. apply boxes_loop_cons_ok in H.
    destruct H as [g1 [Hp Hrest]].
    destruct (IH _ _ _ _ Hrest) as [lg1 [g2 [H1 H2]]].
    exists lg1, g2. split; [ | exact H2].
    cbn [boxes_loop]. rewrite Hp. exact H1.
Qed.

Lemma boxes_loop_unwritten size pts bs :
  forall g lg lg' g' i j c,
    boxes_loop size pts bs g lg = (lg', Ok g') ->
    (forall b, In b bs -> box_writes size pts b i j = false) ->
    g' i j c = g i j c.
Proof.
  induction bs as [ | box rest IH]; intros g lg lg' g' i j c H Hno.
  - cbn in H. injection H as _ <-. reflexivity.
  - apply boxes_loop_cons_ok in H. destruct H as [g1 [Hp Hrest]].
    rewrite (IH _ _ _ _ i j c Hrest)
      by (intros b Hb; apply Hno; right; exact Hb).
    rewrite (process_box_cell _ _ _ _ _ Hp).
    rewrite (Hno box (or_introl eq_refl)). reflexivity.
Qed.

Lemma in_grid_iff (size i j : Z) :
  in_grid size i j = true <-> (0 <= i < size)%Z /\ (0 <= j < size)%Z.
Proof.
  unfold in_grid. rewrite !andb_true_iff, !Z.leb_le, !Z.ltb_lt. lia.
Qed.

Lemma candidate_iff (size : Z) (box2d : Quad) (i j : Z) :
  candidate size box2d i j = true
  <-> (search_area_right_idx size box2d - 1 <= i
       < search_area_left_idx size box2d + 1)%Z
      /\ (search_area_top_idx size box2d - 1 <= j
          < search_area_bottom_idx size box2d + 1)%Z.
Proof.
  unfold candidate. rewrite !andb_true_iff, !Z.leb_le, !Z.ltb_lt. lia.
Qed.

(** X10: rasterising the same box a second time changes nothing: if a run
    returns a grid, the run on that grid returns it again, index by
    index. *)
Theorem rasterising_twice_is_rasterising_once (size : Z) (cs : Corners)
    (box2d : Quad) (ctr : vec2) (pts : list Point4) (h : R) (l : Z) (y : R)
    (g g1 : Grid) :
  generate_out_feature size cs box2d ctr pts h l y g = Ok g1 ->
  exists g2,
    generate_out_feature size cs box2d ctr pts h l y g1 = Ok g2
    /\ forall i j c, g2 i j c = g1 i j c.
Proof.
  intro Hrun.
  destruct (generate_ok_any_grid _ _ _ _ _ _ _ _ _ _ g1 Hrun) as [g2 Hrun2].
  exists g2. split; [exact Hrun2 | ].
  intros i j c.
  rewrite (generate_cell _ _ _ _ _ _ _ _ _ _ Hrun2 i j c).
  rewrite (generate_cell _ _ _ _ _ _ _ _ _ _ Hrun i j c).
  destruct (negb (sparse_skip cs pts l) && written size box2d i j
            && (c <? 8)%nat)%bool; reflexivity.
Qed.

Lemma rasterising_twice_is_rasterising_once_witness :
  exists g1 g2,
    generate_out_feature 2 cube_corners (footprint cube_corners)
      (mean2d (footprint cube_corners)) cube_cloud (height_of cube_corners)
      1 0 zeros = Ok g1
    /\ generate_out_feature 2 cube_corners (footprint cube_corners)
         (mean2d (footprint cube_corners)) cube_cloud (height_of cube_corners)
         1 0 g1 = Ok g2
    /\ forall i j c, g2 i j c = g1 i j c.
Proof.
  destruct (generate_spec 2 cube_corners (footprint cube_corners)
              (mean2d (footprint cube_corners)) cube_cloud
              (height_of cube_corners) 1 0 zeros ltac:(lia) cos_0_nonzero)
    as [g1 [Hrun _]].
  destruct (rasterising_twice_is_rasterising_once _ _ _ _ _ _ _ _ _ _ Hrun)
    as [g2 [Hrun2 Heq]].
  exists g1, g2. split; [exact Hrun | ]. split; [exact Hrun2 | exact Heq].
Defined.

(** X11: the last writer wins.  After the box loop of a frame, a cell holds
    in channels 0 to 7 the values of the last box of the list that writes
    it, whatever the boxes before it left there; a cell that no box writes
    holds what it held before the loop. *)
Theorem last_box_wins (size : Z) (pts : list Point4) (bs1 bs2 : list Box)
    (b : Box) (g g' : Grid) (lg lg' : list Event) (i j : Z) :
  boxes_loop size pts (bs1 ++ b :: bs2) g lg = (lg', Ok g') ->
  (box_writes size pts b i j = true ->
   (forall b', In b' bs2 -> box_writes size pts b' i j = false) ->
   forall c, (c < 8)%nat -> g' i j c = box_value size b i j c)
  /\ ((forall b', In b' (bs1 ++ b :: bs2) ->
                  box_writes size pts b' i j = false) ->
      forall c, g' i j c = g i j c).
Proof.
  intro Hrun. split.
  - intros Hw Hlater c Hc.
    destruct (boxes_loop_app_ok _ _ _ _ _ _ _ _ Hrun) as [lg1 [g1 [_ H2]]].
    apply boxes_loop_cons_ok in H2. destruct H2 as [g2 [Hp Hrest]].
    rewrite (boxes_loop_unwritten _ _ _ _ _ _ _ i j c Hrest Hlater).
    rewrite (process_box_cell _ _ _ _ _ Hp), Hw.
    apply Nat.ltb_lt in Hc. rewrite Hc. reflexivity.
  - intros Hnone c.
    apply (boxes_loop_unwritten _ _ _ _ _ _ _ i j c Hrun Hnone).
Qed.

(** X12: boxes that share no cell commute.  If the loop succeeds on
    [b1; b2] and on [b2; b1] and no cell is written by both boxes, the two
    orders leave the same grid. *)
Theorem disjoint_boxes_commute (size : Z) (pts : list Point4) (b1 b2 : Box)
    (g g12 g21 : Grid) (lg l12 l21 : list Event) :
  boxes_loop size pts [b1; b2] g lg = (l12, Ok g12) ->
  boxes_loop size pts [b2; b1] g lg = (l21, Ok g21) ->
  (forall i j, box_writes size pts b1 i j = false
               \/ box_writes size pts b2 i j = false) ->
  forall i j c, g12 i j c = g21 i j c.
Proof.
  intros H12 H21 Hdis i j c.
  apply boxes_loop_cons_ok in H12. destruct H12 as [ga [Pa Ha]].
  apply boxes_loop_cons_ok in Ha. destruct Ha as [gb [Pb Hb]].
  cbn in Hb. injection Hb as _ <-.
  apply boxes_loop_cons_ok in H21. destruct H21 as [gc [Pc Hc]].
  apply boxes_loop_cons_ok in Hc. destruct Hc as [gd [Pd Hd]].
  cbn in Hd. injection Hd as _ <-.
  rewrite (process_box_cell _ _ _ _ _ Pb), (process_box_cell _ _ _ _ _ Pa).
  rewrite (process_box_cell _ _ _ _ _ Pd), (process_box_cell _ _ _ _ _ Pc).
  destruct (Hdis i j) as [-> | ->]; cbn [andb].
  - reflexivity.
  - destruct (box_writes size pts b1 i j && (c <? 8)%nat)%bool; reflexivity.
Qed.

Lemma process_box_total size pts box g :
  size <> 0%Z -> clean_box box ->
  exists g', process_box size pts box g = Ok g'.
Proof.
  intros Hs [Hc Hn]. unfold process_box.
  destruct (classify (name box)) as [[label | ] | e] eqn:Hcl; cbn [bind].
  - destruct (generate_spec size (corners box) (footprint (corners box))
                (mean2d (footprint (corners box))) pts
                (height_of (corners box)) label (yaw box) g Hs Hc)
      as [g' [Hrun _]].
    exists g'. exact Hrun.
  - exists g. reflexivity.
  - exfalso. apply Hn. apply (proj1 (classify_err_inv _ _ Hcl)).
Qed.

Lemma boxes_loop_total size pts bs :
  size <> 0%Z -> Forall clean_box bs ->
  forall g lg, exists lg' g', boxes_loop size pts bs g lg = (lg', Ok g').
Proof.
  intros Hs Hall. induction Hall as [ | box rest Hb _ IH]; intros g lg.
  - exists lg, g. reflexivity.
  - destruct (process_box_total size pts box g Hs Hb) as [g1 Hp].
    destruct (IH g1 (lg ++ box_events box)) as [lg' [g' Hrest]].
    exists lg', g'. cbn [boxes_loop]. rewrite Hp. exact Hrest.
Qed.

Lemma cube_box_clean (nm : string) :
  nm <> "vehicle"%string -> clean_box (cube_box nm 0).
Proof. intro H. split; [apply cos_0_nonzero | exact H]. Qed.

Lemma cube_box_writes (nm : string) (l : Z) :
  classify nm = Ok (Some l) ->
  box_writes 2 cube_cloud (cube_box nm 0) 0 0 = true.
Proof.
  intro Hc. unfold box_writes. cbn [name corners cube_box]. rewrite Hc.
  rewrite cube_not_sparse, cube_written. reflexivity.
Qed.

Lemma last_box_wins_witness :
  exists lg' g',
    boxes_loop 2 cube_cloud
      ([cube_box "vehicle.car" 0] ++ cube_box "human.pedestrian.adult" 0 :: [])
      zeros []
    = (lg', Ok g')
    /\ g' 0%Z 0%Z 4%nat
       = box_value 2 (cube_box "human.pedestrian.adult" 0) 0 0 4.
Proof.
  destruct (boxes_loop_total 2 cube_cloud
              ([cube_box "vehicle.car" 0]
               ++ cube_box "human.pedestrian.adult" 0 :: [])
              ltac:(lia)
              ltac:(repeat constructor; try apply cos_0_nonzero; discriminate)
              zeros [])
    as [lg' [g' Hrun]].
  exists lg', g'. split; [exact Hrun | ].
  apply (proj1 (last_box_wins 2 cube_cloud [cube_box "vehicle.car" 0] []
                  (cube_box "human.pedestrian.adult" 0) zeros g' [] lg' 0 0
                  Hrun)).
  - apply (cube_box_writes "human.pedestrian.adult" 4). reflexivity.
  - intros b' [].
  - lia.
Defined.

Lemma cube_search_area :
  search_area_left_idx 2 (footprint cube_corners) = 0%Z
  /\ search_area_right_idx 2 (footprint cube_corners) = 0%Z
  /\ search_area_top_idx 2 (footprint cube_corners) = 0%Z
  /\ search_area_bottom_idx 2 (footprint cube_corners) = 0%Z.
Proof.
  unfold search_area_right_idx, search_area_left_idx,
    search_area_top_idx, search_area_bottom_idx.
  rewrite cube_left, cube_right, cube_top, cube_bottom.
  assert (H34 : F2I 34 70 (inv_res 2) = 0%Z)
    by (unfold F2I, inv_res; apply Zfloor_eq; lra).
  assert (H36 : F2I 36 70 (inv_res 2) = 0%Z)
    by (unfold F2I, inv_res; apply Zfloor_eq; lra).
  rewrite H34, H36. repeat split; reflexivity.
Qed.

(** The first cube writes cell (0, 0) only. *)
Lemma cube_written_only_origin (i j : Z) :
  written 2 (footprint cube_corners) i j = true -> i = 0%Z /\ j = 0%Z.
Proof.
  unfold written. intro H.
  apply andb_prop in H. destruct H as [H _].
  apply andb_prop in H. destruct H as [Hc Hg].
  apply candidate_iff in Hc. apply in_grid_iff in Hg.
  destruct cube_search_area as [E1 [E2 [E3 E4]]].
  rewrite E1, E2, E3, E4 in Hc. lia.
Qed.

(** The centre of cell (0, 0) is outside the footprint of the far cube. *)
Lemma far_mask_origin : cell_mask 2 (footprint far_corners) 0 0 = false.
Proof.
  unfold cell_mask. rewrite cube_cell_center.
  cbv [points_in_box2d footprint xy dot2 sub2 far_corners
       c2 c3 c6 c7 q0 q1 q3 ux uy vx vy].
  apply andb_false_iff. left. apply andb_false_iff. right.
  apply Rleb_false. lra.
Qed.

Lemma disjoint_boxes_commute_witness :
  exists l12 g12 l21 g21,
    boxes_loop 2 two_cube_cloud
      [cube_box "vehicle.car" 0; mkBox "human.pedestrian.adult" far_corners 0]
      zeros [] = (l12, Ok g12)
    /\ boxes_loop 2 two_cube_cloud
         [mkBox "human.pedestrian.adult" far_corners 0; cube_box "vehicle.car" 0]
         zeros [] = (l21, Ok g21)
    /\ forall i j c, g12 i j c = g21 i j c.
Proof.
  assert (C1 : clean_box (cube_box "vehicle.car" 0))
    by (apply cube_box_clean; discriminate).
  assert (C2 : clean_box (mkBox "human.pedestrian.adult" far_corners 0))
    by (split; [apply cos_0_nonzero | discriminate]).
  destruct (boxes_loop_total 2 two_cube_cloud
              [cube_box "vehicle.car" 0;
               mkBox "human.pedestrian.adult" far_corners 0]
              ltac:(lia)
              (Forall_cons _ C1 (Forall_cons _ C2 (Forall_nil _))) zeros [])
    as [l12 [g12 H12]].
  destruct (boxes_loop_total 2 two_cube_cloud
              [mkBox "human.pedestrian.adult" far_corners 0;
               cube_box "vehicle.car" 0]
              ltac:(lia)
              (Forall_cons _ C2 (Forall_cons _ C1 (Forall_nil _))) zeros [])
    as [l21 [g21 H21]].
  exists l12, g12, l21, g21.
  split; [exact H12 | ]. split; [exact H21 | ].
  apply (disjoint_boxes_commute 2 two_cube_cloud _ _ zeros g12 g21 [] l12 l21
           H12 H21).
  intros i j.
  destruct (written 2 (footprint cube_corners) i j) eqn:W.
  - right. destruct (cube_written_only_origin i j W) as [-> ->].
    unfold box_writes, written. cbn [name corners].
    change (classify "human.pedestrian.adult") with (Ok (Some 4%Z)).
    cbv beta iota. rewrite far_mask_origin, !andb_false_r. reflexivity.
  - left. unfold box_writes. cbn [name corners cube_box].
    change (classify "vehicle.car") with (Ok (Some 1%Z)).
    cbv beta iota. rewrite W, andb_false_r. reflexivity.
Defined.

(** ** The finished label grid *)

Lemma box_value_ok (size : Z) (pts : list Point4) (box : Box) (i j : Z) :
  box_writes size pts box i j = true ->
  in_grid size i j = true
  /\ box_value size box i j 0 = 1
  /\ box_value size box i j 3 = 1
  /\ (exists l, (0 <= l <= 4)%Z /\ box_value size box i j 4 = IZR l)
  /\ Rabs (box_value size box i j 1) <= 2 * (2 * 70 / IZR size)
  /\ Rabs (box_value size box i j 2) <= 2 * (2 * 70 / IZR size)
  /\ box_value size box i j 5 * box_value size box i j 5
     + box_value size box i j 6 * box_value size box i j 6 = 1
  /\ 0 <= box_value size box i j 7.
Proof.
  unfold box_writes, box_value.
  destruct (classify (name box)) as [[label | ] | e] eqn:Hc;
    try discriminate.
  intro Hw. apply andb_prop in Hw. destruct Hw as [_ Hw].
  unfold written in Hw.
  apply andb_prop in Hw. destruct Hw as [Hw _].
  apply andb_prop in Hw. destruct Hw as [_ Hg].
  pose proof (in_grid_size _ _ _ Hg) as Hs.
  split; [exact Hg | ]. cbn [channel_value].
  split; [reflexivity | ]. split; [reflexivity | ].
  split; [exists label; split; [apply (classify_range _ _ Hc) | reflexivity] | ].
  unfold offset_scale. rewrite <- (max_len_val_two_cells size Hs).
  destruct (clamped_offset_bound (max_len_val size)
              (ux (mean2d (footprint (corners box))) - cell_center size i)
              (uy (mean2d (footprint (corners box))) - cell_center size j)
              (max_len_val_nonneg size)) as [B1 B2].
  split; [exact B1 | ]. split; [exact B2 | ]. split.
  - pose proof (sin2_cos2 (atan (sin (yaw box) / cos (yaw box)) * 2)) as P.
    unfold Rsqr in P. lra.
  - unfold height_of, norm3. apply sqrt_pos.
Qed.

Lemma process_box_keeps_cell_ok size pts box g g' :
  process_box size pts box g = Ok g' ->
  (forall i j, cell_ok size g i j) ->
  forall i j, cell_ok size g' i j.
Proof.
  intros Hp Hg i j.
  pose proof (process_box_cell _ _ _ _ _ Hp i j) as Hat.
  destruct (box_writes size pts box i j) eqn:Hw.
  - right.
    destruct (box_value_ok _ _ _ _ _ Hw)
      as [Hin [V0 [V3 [V4 [V1 [V2 [V56 V7]]]]]]].
    rewrite !Hat. cbn [andb Nat.ltb Nat.leb].
    repeat (split; [assumption | ]).
    intros c Hc. rewrite Hat.
    assert (E : (c <? 8)%nat = false) by (apply Nat.ltb_ge; exact Hc).
    rewrite E. cbn [andb].
    destruct (Hg i j) as [Hz | Hm]; [apply Hz | ].
    apply Hm. exact Hc.
  - destruct (Hg i j) as [Hz | Hm].
    + left. intro c. rewrite Hat. apply Hz.
    + right. rewrite !Hat. cbn [andb].
      destruct Hm as [Hin [V0 [V3 [V4 [V1 [V2 [V56 [V7 Vhi]]]]]]]].
      repeat (split; [assumption | ]).
      intros c Hc. rewrite Hat. cbn [andb]. apply Vhi. exact Hc.
Qed.

Lemma boxes_loop_keeps_cell_ok size pts bs :
  forall g lg lg' g',
    boxes_loop size pts bs g lg = (lg', Ok g') ->
    (forall i j, cell_ok size g i j) ->
    forall i j, cell_ok size g' i j.
Proof.
  induction bs as [ | box rest IH]; intros g lg lg' g' H Hg.
  - cbn in H. injection H as _ <-. exact Hg.
  - apply boxes_loop_cons_ok in H. destruct H as [g1 [Hp Hrest]].
    apply (IH _ _ _ _ Hrest).
    apply (process_box_keeps_cell_ok _ _ _ _ _ Hp Hg).
Qed.

(** X13: what a finished label grid can hold.  After the box loop of a
    frame, started on the zero grid, every cell is either zero on every
    channel or is a cell of the grid holding the marks of one box: channels 0
    and 3 equal to 1, a class id from 0 to 4 in channel 4, offsets of at
    most two cell widths in channels 1 and 2, a point of the unit circle in
    channels 5 and 6 and a height that is not negative in channel 7.
    Nothing is ever written outside the grid or beyond channel 7. *)
Theorem label_grid_invariant (size : Z) (pts : list Point4) (bs : list Box)
    (lg lg' : list Event) (g' : Grid) :
  boxes_loop size pts bs zeros lg = (lg', Ok g') ->
  (forall i j, cell_ok size g' i j)
  /\ (forall i j c, in_grid size i j = false -> g' i j c = 0)
  /\ (forall i j c, (8 <= c)%nat -> g' i j c = 0).
Proof.
  intro Hrun.
  assert (Hok : forall i j, cell_ok size g' i j).
  { apply (boxes_loop_keeps_cell_ok _ _ _ _ _ _ _ Hrun).
    intros i j. left. intro c. reflexivity. }
  split; [exact Hok | ]. split.
  - intros i j c Hout. destruct (Hok i j) as [Hz | Hm]; [apply Hz | ].
    destruct Hm as [Hin _]. rewrite Hin in Hout. discriminate.
  - intros i j c Hc. destruct (Hok i j) as [Hz | Hm]; [apply Hz | ].
    apply Hm. exact Hc.
Qed.

Lemma label_grid_invariant_witness :
  exists lg' g',
    boxes_loop 2 cube_cloud
      [cube_box "vehicle.car" 0; cube_box "human.pedestrian.adult" 0]
      zeros [] = (lg', Ok g')
    /\ (forall i j, cell_ok 2 g' i j)
    /\ (forall i j c, in_grid 2 i j = false -> g' i j c = 0)
    /\ (forall i j c, (8 <= c)%nat -> g' i j c = 0).
Proof.
  destruct (boxes_loop_total 2 cube_cloud
              [cube_box "vehicle.car" 0; cube_box "human.pedestrian.adult" 0]
              ltac:(lia)
              (Forall_cons _ (cube_box_clean "vehicle.car" ltac:(discriminate))
                 (Forall_cons _
                    (cube_box_clean "human.pedestrian.adult"
                       ltac:(discriminate))
                    (Forall_nil _)))
              zeros [])
    as [lg' [g' Hrun]].
  exists lg', g'. split; [exact Hrun | ].
  apply (label_grid_invariant 2 cube_cloud _ [] lg' g' Hrun).
Defined.

(** ** Boxes beyond the grid *)

Lemma F2I_negative (v s : R) : 0 < s -> 70 < v -> (F2I v 70 s < 0)%Z.
Proof.
  intros Hs Hv. unfold F2I.
  destruct (Zfloor_bound ((70 - v) * s)) as [Hlo _].
  assert (Hneg : (70 - v) * s < 0) by nra.
  apply lt_IZR. lra.
Qed.

Lemma F2I_beyond (size : Z) (v : R) :
  (0 < size)%Z -> v <= - 70 - 2 * 70 / IZR size ->
  (size + 1 <= F2I v 70 (inv_res size))%Z.
Proof.
  intros Hs Hv. assert (Hp : 0 < IZR size) by (apply IZR_lt; exact Hs).
  apply F2I_bounds. rewrite plus_IZR.
  pose proof (inv_res_pos size Hs) as Hr.
  assert (E : (70 - (- 70 - 2 * 70 / IZR size)) * inv_res size = IZR size + 1)
    by (unfold inv_res; rewrite half_inv; field; lra).
  assert (Hle : (70 - (- 70 - 2 * 70 / IZR size)) * inv_res size
                <= (70 - v) * inv_res size)
    by (apply Rmult_le_compat_r; lra).
  lra.
Qed.

(** X14: a box beyond the grid is passed over without any error, whatever
    its yaw, label and points: this holds when the footprint lies past +70
    on an axis (its smallest x or y exceeds 70), and when it lies at least
    one cell width past -70 (its largest x or y is at most
    [-70 - 2 * 70 / size]). *)
Theorem box_beyond_grid_is_ignored (size : Z) (cs : Corners) (box2d : Quad)
    (ctr : vec2) (pts : list Point4) (h : R) (l : Z) (y : R) (g : Grid) :
  (0 < size)%Z ->
  70 < box2d_left box2d \/ 70 < box2d_bottom box2d
  \/ box2d_right box2d <= - 70 - 2 * 70 / IZR size
  \/ box2d_top box2d <= - 70 - 2 * 70 / IZR size ->
  generate_out_feature size cs box2d ctr pts h l y g = Ok g.
Proof.
  intros Hs Hout. apply generate_clipped; [lia | ].
  intros i j Hc. apply candidate_iff in Hc. destruct Hc as [Hi Hj].
  pose proof (inv_res_pos size Hs) as Hr.
  destruct (in_grid size i j) eqn:G; [ | reflexivity].
  apply in_grid_iff in G. exfalso.
  destruct Hout as [H | [H | [H | H]]].
  - pose proof (F2I_negative _ _ Hr H) as Hn.
    unfold search_area_left_idx in Hi. lia.
  - pose proof (F2I_negative _ _ Hr H) as Hn.
    unfold search_area_bottom_idx in Hj. lia.
  - pose proof (F2I_beyond size _ Hs H) as Hn.
    unfold search_area_right_idx in Hi. lia.
  - pose proof (F2I_beyond size _ Hs H) as Hn.
    unfold search_area_top_idx in Hj. lia.
Qed.

Lemma box_beyond_grid_is_ignored_witness :
  generate_out_feature 2 cube_corners
    (mkQuad (mk2 73 (-1)) (mk2 73 1) (mk2 71 1) (mk2 71 (-1)))
    (mk2 72 0) cube_cloud 2 1 (PI / 2) zeros
  = Ok zeros.
Proof.
  apply (box_beyond_grid_is_ignored 2 cube_corners
           (mkQuad (mk2 73 (-1)) (mk2 73 1) (mk2 71 1) (mk2 71 (-1)))
           (mk2 72 0) cube_cloud 2 1 (PI / 2) zeros).
  - lia.
  - left. unfold box2d_left. cbn [q0 q1 q2 q3 ux]. decide_minmax. lra.
Defined.

(** ** The 3D test under a rigid motion, and on degenerate boxes *)

Lemma sub3_move (theta : R) (t a b : vec3) :
  sub3 (move theta t a) (move theta t b) = rot_z theta (sub3 a b).
Proof.
  unfold move, sub3, add3, rot_z; cbn [vx vy vz]. f_equal; ring.
Qed.

Lemma dot3_rot_z (theta : R) (a b : vec3) :
  dot3 (rot_z theta a) (rot_z theta b) = dot3 a b.
Proof.
  pose proof (sin2_cos2 theta) as H. unfold Rsqr in H.
  unfold dot3, rot_z; cbn [vx vy vz].
  replace ((cos theta * vx a - sin theta * vy a)
           * (cos theta * vx b - sin theta * vy b)
           + (sin theta * vx a + cos theta * vy a)
             * (sin theta * vx b + cos theta * vy b)
           + vz a * vz b)
    with ((sin theta * sin theta + cos theta * cos theta)
          * (vx a * vx b + vy a * vy b) + vz a * vz b) by ring.
  rewrite H. ring.
Qed.

Lemma point_in_box_move (theta : R) (t : vec3) (cs : Corners) (p : vec3) :
  point_in_box (move_corners theta t cs) (move theta t p)
  = point_in_box cs p.
Proof.
  unfold point_in_box, move_corners; cbn [c0 c1 c3 c4].
  rewrite !sub3_move, !dot3_rot_z. reflexivity.
Qed.

(** X15: the count of enclosed points does not change when the box and the
    point cloud undergo the same rotation about the vertical axis and the
    same translation; so the decision to skip a sparse box is the same
    before and after such a motion. *)
Theorem enclosed_count_is_motion_invariant (theta : R) (t : vec3)
    (cs : Corners) (pts : list Point4) (l : Z) :
  count_nonzero
    (points_in_box (move_corners theta t cs)
       (map xyz (map (move_point theta t) pts)))
  = count_nonzero (points_in_box cs (map xyz pts))
  /\ sparse_skip (move_corners theta t cs) (map (move_point theta t) pts) l
     = sparse_skip cs pts l.
Proof.
  assert (E : points_in_box (move_corners theta t cs)
                (map xyz (map (move_point theta t) pts))
              = points_in_box cs (map xyz pts)).
  { unfold points_in_box. rewrite !map_map. apply map_ext. intro p.
    replace (xyz (move_point theta t p)) with (move theta t (xyz p))
      by (unfold move_point, xyz; cbn [px py pz]; destruct (move theta t _);
          reflexivity).
    apply point_in_box_move. }
  split.
  - rewrite E. reflexivity.
  - unfold sparse_skip, num_points. rewrite E. reflexivity.
Qed.

(** X16: a box whose corners 4, 1 and 3 coincide with corner 0 (three edges
    of zero length) encloses every point: the count is the size of the
    cloud, so such a box is sparse exactly when the cloud has fewer than 4
    points. *)
Theorem degenerate_box_encloses_everything (cs : Corners)
    (pts : list Point4) :
  c4 cs = c0 cs -> c1 cs = c0 cs -> c3 cs = c0 cs ->
  (forall p, point_in_box cs p = true)
  /\ count_nonzero (points_in_box cs (map xyz pts))
     = Z.of_nat (List.length pts).
Proof.
  intros H4 H1 H3.
  assert (Hall : forall p, point_in_box cs p = true).
  { intro p. apply point_in_box_iff.
    unfold projections_in_range, edge_i, edge_j, edge_k.
    rewrite H4, H1, H3. unfold dot3, sub3; cbn [vx vy vz].
    repeat split; lra. }
  split; [exact Hall | ].
  unfold count_nonzero, points_in_box. f_equal.
  induction pts as [ | p rest IH]; cbn [map filter List.length];
    [reflexivity | ].
  rewrite Hall. cbn [List.length]. rewrite IH. reflexivity.
Qed.

Lemma degenerate_box_encloses_everything_witness :
  (forall p,
      point_in_box
        (mkCorners (mk3 1 2 3) (mk3 1 2 3) (mk3 1 2 3) (mk3 1 2 3)
                   (mk3 1 2 3) (mk3 1 2 3) (mk3 1 2 3) (mk3 1 2 3)) p = true)
  /\ count_nonzero
       (points_in_box
          (mkCorners (mk3 1 2 3) (mk3 1 2 3) (mk3 1 2 3) (mk3 1 2 3)
                     (mk3 1 2 3) (mk3 1 2 3) (mk3 1 2 3) (mk3 1 2 3))
          (map xyz cube_cloud))
     = Z.of_nat (List.length cube_cloud).
Proof.
  apply (degenerate_box_encloses_everything
           (mkCorners (mk3 1 2 3) (mk3 1 2 3) (mk3 1 2 3) (mk3 1 2 3)
                      (mk3 1 2 3) (mk3 1 2 3) (mk3 1 2 3) (mk3 1 2 3))
           cube_cloud); reflexivity.
Defined.

(** ** The frame loop of [create_dataset] *)

Lemma run_loop_app {A : Type} (step : A -> State -> State * Flow)
    (xs ys : list A) :
  forall st,
    run_loop step (xs ++ ys) st
    = match run_loop step xs st with
      | (st', Next) => run_loop step ys st'
      | stop => stop
      end.
Proof.
  induction xs as [ | x xs IH]; intro st; cbn [app run_loop].
  - reflexivity.
  - destruct (step x st) as [st' [ | | e]]; [apply IH | reflexivity | reflexivity].
Qed.

Lemma run_loop_concat {A : Type} (step : A -> State -> State * Flow)
    (xss : list (list A)) :
  forall st,
    run_loop (run_loop step) xss st = run_loop step (List.concat xss) st.
Proof.
  induction xss as [ | xs xss IH]; intro st; cbn [List.concat run_loop].
  - reflexivity.
  - rewrite run_loop_app.
    destruct (run_loop step xs st) as [st' [ | | e]];
      [apply IH | reflexivity | reflexivity].
Qed.

(** The three nested loops are one loop over the frames. *)
Lemma create_dataset_flat (width height : Z) (grid_range : R)
    (end_id : option Z) (scenes : list Scene) :
  create_dataset width height grid_range end_id scenes
  = match square_size width height with
    | Err e => (mkState 0 [], Raised e)
    | Ok size =>
        match fdiv (2 * grid_range) (IZR size) with
        | Err e => (mkState 0 [], Raised e)
        | Ok _ =>
            run_loop (frame_step size end_id) (frames_of scenes)
              (mkState 0 [])
        end
    end.
Proof.
  unfold create_dataset, frames_of.
  destruct (square_size width height) as [size | e]; [ | reflexivity].
  destruct (fdiv (2 * grid_range) (IZR size)); [ | reflexivity].
  rewrite run_loop_concat. apply run_loop_concat.
Qed.

Lemma saved_ids_app (a b : list Event) :
  saved_ids (a ++ b) = saved_ids a ++ saved_ids b.
Proof.
  induction a as [ | ev a IH]; cbn; [reflexivity | ].
  destruct ev; cbn; rewrite IH; reflexivity.
Qed.

Lemma saved_grids_app (a b : list Event) :
  saved_grids (a ++ b) = saved_grids a ++ saved_grids b.
Proof.
  induction a as [ | ev a IH]; cbn; [reflexivity | ].
  destruct ev; cbn; rewrite IH; reflexivity.
Qed.

Lemma box_events_not_saved (box : Box) :
  saved_ids (box_events box) = [] /\ saved_grids (box_events box) = [].
Proof.
  unfold box_events.
  destruct (classify (name box)) as [[l | ] | e]; split; reflexivity.
Qed.

(** The box loop adds no [Saved] event to the log. *)
Lemma boxes_loop_saved size pts bs :
  forall g lg,
    saved_ids (fst (boxes_loop size pts bs g lg)) = saved_ids lg
    /\ saved_grids (fst (boxes_loop size pts bs g lg)) = saved_grids lg.
Proof.
  induction bs as [ | box rest IH]; intros g lg; cbn [boxes_loop].
  - split; reflexivity.
  - destruct (box_events_not_saved box) as [E1 E2].
    destruct (process_box size pts box g) as [g1 | e].
    + destruct (IH g1 (lg ++ box_events box)) as [H1 H2].
      rewrite H1, H2, saved_ids_app, saved_grids_app, E1, E2, !app_nil_r.
      split; reflexivity.
    + cbn [fst]. rewrite saved_ids_app, saved_grids_app, E1, E2, !app_nil_r.
      split; reflexivity.
Qed.

(** The grid the box loop returns does not depend on the log. *)
Lemma boxes_loop_result size pts bs :
  forall g lg,
    snd (boxes_loop size pts bs g lg) = snd (boxes_loop size pts bs g []).
Proof.
  induction bs as [ | box rest IH]; intros g lg; cbn [boxes_loop].
  - reflexivity.
  - destruct (process_box size pts box g) as [g1 | e]; [ | reflexivity].
    rewrite (IH g1 (lg ++ box_events box)), (IH g1 ([] ++ box_events box)).
    reflexivity.
Qed.

Lemma range_snoc (d : Z) : (0 <= d)%Z -> range 0 (d + 1) = range 0 d ++ [d].
Proof.
  intro Hd. unfold range.
  replace (Z.to_nat (d + 1 - 0)) with (S (Z.to_nat d)) by lia.
  replace (Z.to_nat (d - 0)) with (Z.to_nat d) by lia.
  rewrite seq_S, map_app. cbn [map Nat.add]. f_equal. f_equal. lia.
Qed.

(** What one frame does to the state, case by case. *)
Lemma frame_step_cases size end_id fr st :
  (frame_step size end_id fr st = (st, Raised ValueError) /\ (size < 0)%Z)
  \/ (exists lg e,
         frame_step size end_id fr st = (mkState (data_id st) lg, Raised e)
         /\ saved_ids lg = saved_ids (log st)
         /\ saved_grids lg = saved_grids (log st))
  \/ (exists lg out,
         (0 <= size)%Z
         /\ snd (boxes_loop size (pc_points_of fr) (boxes_of fr) zeros [])
            = Ok out
         /\ saved_ids lg = saved_ids (log st) ++ [data_id st]
         /\ saved_grids lg = saved_grids (log st) ++ [out]
         /\ frame_step size end_id fr st
            = (mkState (data_id st + 1) lg,
               if end_reached end_id (data_id st + 1) then Returned else Next)).
Proof.
  unfold frame_step. destruct (Z.ltb_spec size 0) as [Hneg | Hpos].
  - left. split; [reflexivity | exact Hneg].
  - right.
    pose proof (boxes_loop_saved size (pc_points_of fr) (boxes_of fr) zeros
                  (log st ++ [Allocated size])) as [S1 S2].
    pose proof (boxes_loop_result size (pc_points_of fr) (boxes_of fr) zeros
                  (log st ++ [Allocated size])) as Hres.
    destruct (boxes_loop size (pc_points_of fr) (boxes_of fr) zeros
                (log st ++ [Allocated size])) as [lg [out | e]];
      cbn [fst snd] in S1, S2, Hres.
    + right. exists (lg ++ [Saved (data_id st) out]), out.
      rewrite saved_ids_app, saved_grids_app, S1, S2,
        saved_ids_app, saved_grids_app.
      cbn [saved_ids saved_grids data_id]. rewrite !app_nil_r.
      split; [exact Hpos | ]. split; [symmetry; exact Hres | ].
      split; [reflexivity | ]. split; [reflexivity | ].
      destruct (end_reached end_id (data_id st + 1)); reflexivity.
    + left. exists lg, e.
      rewrite S1, S2, saved_ids_app, saved_grids_app.
      cbn [saved_ids saved_grids]. rewrite !app_nil_r.
      repeat split; reflexivity.
Qed.

Lemma run_loop_state_inv {A : Type} (step : A -> State -> State * Flow)
    (P : State -> Prop) :
  (forall x st, P st -> P (fst (step x st))) ->
  forall xs st, P st -> P (fst (run_loop step xs st)).
Proof.
  intro Hstep. induction xs as [ | x xs IH]; intros st Hst; cbn [run_loop].
  - exact Hst.
  - pose proof (Hstep x st Hst) as Hx.
    destruct (step x st) as [st' [ | | e]]; cbn [fst] in Hx |- *.
    + apply IH. exact Hx.
    + exact Hx.
    + exact Hx.
Qed.

(** The log and the counter of a run agree, however the run ends. *)
Lemma saved_log_invariant (width height : Z) (grid_range : R)
    (end_id : option Z) (scenes : list Scene) :
  let st := fst (create_dataset width height grid_range end_id scenes) in
  saved_ids (log st) = range 0 (data_id st)
  /\ List.length (saved_grids (log st)) = Z.to_nat (data_id st)
  /\ (0 <= data_id st)%Z.
Proof.
  set (P := fun st : State =>
              saved_ids (log st) = range 0 (data_id st)
              /\ List.length (saved_grids (log st)) = Z.to_nat (data_id st)
              /\ (0 <= data_id st)%Z).
  assert (P0 : P (mkState 0 [])) by (repeat split; cbn; lia).
  cbv zeta. fold (P (fst (create_dataset width height grid_range end_id scenes))).
  rewrite create_dataset_flat.
  destruct (square_size width height) as [size | e]; [ | exact P0].
  destruct (fdiv (2 * grid_range) (IZR size)); [ | exact P0].
  apply run_loop_state_inv; [ | exact P0].
  intros fr st [H1 [H2 H3]].
  destruct (frame_step_cases size end_id fr st)
    as [[E _] | [[lg [e [E [S1 S2]]]] | [lg [out [_ [_ [S1 [S2 E]]]]]]]];
    rewrite E; cbn [fst]; unfold P; cbn [log data_id].
  - auto.
  - rewrite S1, S2. auto.
  - rewrite S1, S2, H1, length_app, H2, range_snoc by exact H3.
    cbn [List.length]. repeat split; lia.
Qed.

(** X17: output files are numbered without gaps.  Whatever the inputs and
    however the run ends (normally, by [end_id], or by an error), the ids
    under which grids were saved are exactly 0, 1, ..., [data_id - 1], in
    this order. *)
Theorem saved_ids_are_sequential (width height : Z) (grid_range : R)
    (end_id : option Z) (scenes : list Scene) :
  let st := fst (create_dataset width height grid_range end_id scenes) in
  saved_ids (log st) = range 0 (data_id st)
  /\ List.length (saved_grids (log st)) = Z.to_nat (data_id st)
  /\ (0 <= data_id st)%Z.
Proof. apply saved_log_invariant. Qed.

Lemma frame_step_data_id size end_id fr st :
  (0 <= data_id st)%Z -> (0 <= data_id (fst (frame_step size end_id fr st)))%Z.
Proof.
  intro H.
  destruct (frame_step_cases size end_id fr st)
    as [[E _] | [[lg [e [E _]]] | [lg [out [_ [_ [_ [_ E]]]]]]]];
    rewrite E; cbn [fst data_id]; lia.
Qed.

Lemma run_loop_end_id_ignored size (e : Z) (frames : list Frame) :
  (e <= 0)%Z ->
  forall st,
    (0 <= data_id st)%Z ->
    run_loop (frame_step size (Some e)) frames st
    = run_loop (frame_step size None) frames st.
Proof.
  intro He. induction frames as [ | fr rest IH]; intros st Hst;
    cbn [run_loop]; [reflexivity | ].
  assert (E : frame_step size (Some e) fr st = frame_step size None fr st).
  { unfold frame_step. destruct (size <? 0)%Z; [reflexivity | ].
    destruct (boxes_loop size (pc_points_of fr) (boxes_of fr) zeros
                (log st ++ [Allocated size])) as [lg [out | err]];
      [ | reflexivity].
    cbn [end_reached data_id].
    destruct (Z.eqb_spec (data_id st + 1) e); [lia | reflexivity]. }
  rewrite E.
  pose proof (frame_step_data_id size None fr st Hst) as Hd.
  destruct (frame_step size None fr st) as [st' [ | | err]];
    [apply IH; exact Hd | reflexivity | reflexivity].
Qed.

(** X18: an [end_id] that is zero or negative never stops the run: the
    counter is compared after it has been incremented, so it is at least 1
    at every comparison, and the run is the one with [end_id = None]. *)
Theorem nonpositive_end_id_is_no_limit (width height : Z) (grid_range : R)
    (e : Z) (scenes : list Scene) :
  (e <= 0)%Z ->
  create_dataset width height grid_range (Some e) scenes
  = create_dataset width height grid_range None scenes.
Proof.
  intro He. rewrite !create_dataset_flat.
  destruct (square_size width height) as [size | err]; [ | reflexivity].
  destruct (fdiv (2 * grid_range) (IZR size)); [ | reflexivity].
  apply run_loop_end_id_ignored; [exact He | cbn; lia].
Qed.

Lemma nonpositive_end_id_is_no_limit_witness :
  create_dataset 2 2 70 (Some 0%Z)
    [[[mkFrame cube_cloud [cube_box "vehicle.car" 0]]]]
  = create_dataset 2 2 70 None
      [[[mkFrame cube_cloud [cube_box "vehicle.car" 0]]]].
Proof.
  apply (nonpositive_end_id_is_no_limit 2 2 70 0). lia.
Defined.

Lemma run_loop_end_id_bound size (e : Z) (frames : list Frame) :
  forall st,
    (0 <= data_id st < e)%Z ->
    let r := run_loop (frame_step size (Some e)) frames st in
    (snd r = Returned -> data_id (fst r) = e)
    /\ (snd r <> Returned -> (0 <= data_id (fst r) < e)%Z).
Proof.
  induction frames as [ | fr rest IH]; intros st Hst; cbn [run_loop].
  - cbn. split; [discriminate | intros _; exact Hst].
  - destruct (frame_step_cases size (Some e) fr st)
      as [[E _] | [[lg [err [E _]]] | [lg [out [_ [_ [_ [_ E]]]]]]]];
      rewrite E.
    + cbn. split; [discriminate | intros _; exact Hst].
    + cbn. split; [discriminate | intros _; exact Hst].
    + cbn [end_reached].
      destruct (Z.eqb_spec (data_id st + 1) e) as [Heq | Hne].
      * cbn. split; [intros _; exact Heq | intro H; exfalso; apply H; reflexivity].
      * apply IH. cbn [data_id]. lia.
Qed.

(** X19: a positive [end_id] bounds the output: the run saves at most
    [end_id] grids, it ends by the early [return] exactly when it has saved
    [end_id] of them, and in every other ending it has saved fewer. *)
Theorem positive_end_id_bounds_output (width height : Z) (grid_range : R)
    (e : Z) (scenes : list Scene) :
  (0 < e)%Z ->
  let r := create_dataset width height grid_range (Some e) scenes in
  (data_id (fst r) <= e)%Z
  /\ (snd r = Returned <-> data_id (fst r) = e)
  /\ List.length (saved_grids (log (fst r))) = Z.to_nat (data_id (fst r)).
Proof.
  intros He r.
  assert (Hb : (snd r = Returned -> data_id (fst r) = e)
               /\ (snd r <> Returned -> (0 <= data_id (fst r) < e)%Z)).
  { unfold r. rewrite create_dataset_flat.
    destruct (square_size width height) as [size | err];
      [ | cbn; split; [discriminate | intros _; lia]].
    destruct (fdiv (2 * grid_range) (IZR size));
      [ | cbn; split; [discriminate | intros _; lia]].
    apply run_loop_end_id_bound. cbn. lia. }
  destruct Hb as [Hret Hnot].
  assert (Hdec : snd r = Returned \/ snd r <> Returned)
    by (destruct (snd r); [right | left | right]; congruence).
  split; [ | split].
  - destruct Hdec as [H | H]; [rewrite (Hret H); lia | pose proof (Hnot H); lia].
  - split; [exact Hret | ].
    intro Heq. destruct Hdec as [H | H]; [exact H | pose proof (Hnot H); lia].
  - apply (saved_log_invariant width height grid_range (Some e) scenes).
Qed.

Lemma positive_end_id_bounds_output_witness :
  let r := create_dataset 2 2 70 (Some 1%Z)
             [[[mkFrame cube_cloud [cube_box "vehicle.car" 0]];
               [mkFrame cube_cloud [cube_box "human.pedestrian.adult" 0]]]] in
  (data_id (fst r) <= 1)%Z
  /\ (snd r = Returned <-> data_id (fst r) = 1%Z)
  /\ List.length (saved_grids (log (fst r))) = Z.to_nat (data_id (fst r)).
Proof.
  apply (positive_end_id_bounds_output 2 2 70 1). lia.
Defined.

(** X20: only the sequence of frames matters.  Two inputs whose scenes and
    samples hold the same frames in the same order give the same run,
    however the frames are grouped into samples and scenes. *)
Theorem grouping_of_frames_is_irrelevant (width height : Z) (grid_range : R)
    (end_id : option Z) (scenes1 scenes2 : list Scene) :
  frames_of scenes1 = frames_of scenes2 ->
  create_dataset width height grid_range end_id scenes1
  = create_dataset width height grid_range end_id scenes2.
Proof.
  intro H. rewrite !create_dataset_flat, H. reflexivity.
Qed.

Lemma grouping_of_frames_is_irrelevant_witness :
  create_dataset 2 2 70 None
    [[[mkFrame cube_cloud [cube_box "vehicle.car" 0]]];
     [[mkFrame cube_cloud [cube_box "human.pedestrian.adult" 0]]]]
  = create_dataset 2 2 70 None
      [[[mkFrame cube_cloud [cube_box "vehicle.car" 0];
         mkFrame cube_cloud [cube_box "human.pedestrian.adult" 0]]]].
Proof.
  apply (grouping_of_frames_is_irrelevant 2 2 70 None). reflexivity.
Defined.







(** ** Upright boxes and their footprint *)

Lemma upright_edges_horizontal (cs : Corners) :
  orthogonal_edges cs -> nonzero_edges cs -> upright cs ->
  vz (edge_i cs) = 0 /\ vz (edge_j cs) = 0.
Proof.
  intros [_ [Hik Hjk]] [_ [_ Nk]] [Ux Uy].
  unfold dot3 in Hik, Hjk, Nk. rewrite Ux, Uy in Hik, Hjk, Nk.
  assert (Hz : vz (edge_k cs) <> 0) by (intro E; apply Nk; rewrite E; ring).
  split.
  - apply (Rmult_eq_reg_r (vz (edge_k cs))); [lra | exact Hz].
  - apply (Rmult_eq_reg_r (vz (edge_k cs))); [lra | exact Hz].
Qed.

Lemma footprint_edges (cs : Corners) :
  cuboid cs ->
  sub2 (q1 (footprint cs)) (q0 (footprint cs))
  = mk2 (- vx (edge_j cs)) (- vy (edge_j cs))
  /\ sub2 (q3 (footprint cs)) (q0 (footprint cs))
     = mk2 (vx (edge_i cs)) (vy (edge_i cs))
  /\ q0 (footprint cs)
     = mk2 (vx (c0 cs) + vx (edge_j cs) + vx (edge_k cs))
           (vy (c0 cs) + vy (edge_j cs) + vy (edge_k cs)).
Proof.
  intros [H2 [H5 [H6 H7]]].
  unfold footprint, xy; cbn [q0 q1 q3]. rewrite H2, H6.
  unfold sub2, add3, edge_i, edge_j, edge_k, sub3; cbn [ux uy vx vy vz].
  repeat split; f_equal; ring.
Qed.

(** X23: the footprint of an upright box.  For a cuboid in the devkit's
    corner order with orthogonal edges of non-zero length and a vertical
    edge from corner 0 to corner 3, the rows [2, 3, 7, 6] form a rectangle
    in the order the 2D test reads them, and their mean is the vertical
    projection of the centroid of the eight corners. *)
Theorem upright_box_footprint (cs : Corners) :
  orthogonal_edges cs -> nonzero_edges cs -> cuboid cs -> upright cs ->
  rectangle (footprint cs)
  /\ mean2d (footprint cs) = xy (centroid cs).
Proof.
  intros Horth Hnz Hcub Hup.
  destruct (upright_edges_horizontal cs Horth Hnz Hup) as [Zi Zj].
  destruct (footprint_edges cs Hcub) as [E1 [E3 _]].
  destruct Horth as [Hij _]. destruct Hnz as [Ni [Nj _]].
  destruct Hup as [Ux Uy].
  pose proof Hcub as [H2 [H5 [H6 H7]]].
  unfold dot3 in Hij, Ni, Nj. rewrite Zi in Hij, Ni. rewrite Zj in Hij, Nj.
  split.
  - unfold rectangle. rewrite E1, E3. unfold dot2; cbn [ux uy].
    split; [ | split; [ | split]].
    + unfold footprint, xy; cbn [q0 q1 q2 q3 ux uy]. rewrite H2, H6, H7.
      unfold add3, edge_i, edge_j, edge_k, sub3; cbn [vx vy vz].
      f_equal; ring.
    + lra.
    + intro E. apply Nj. lra.
    + intro E. apply Ni. lra.
  - unfold mean2d, footprint, centroid, xy; cbn [q0 q1 q2 q3 ux uy].
    rewrite H2, H5, H6, H7.
    unfold edge_k, sub3 in Ux, Uy; cbn [vx vy] in Ux, Uy.
    unfold scale3, add3, edge_i, edge_j, edge_k, sub3; cbn [vx vy vz].
    f_equal; lra.
Qed.

Lemma cube_upright : upright cube_corners.
Proof.
  unfold upright, edge_k. unfold_geometry. split; lra.
Qed.

Lemma upright_box_footprint_witness :
  rectangle (footprint cube_corners)
  /\ mean2d (footprint cube_corners) = xy (centroid cube_corners).
Proof.
  apply (upright_box_footprint cube_corners cube_orthogonal cube_nonzero
           cube_cuboid cube_upright).
Defined.

(** X24: the two membership tests agree on enclosed points.  For an upright
    cuboid, a point that passes the 3D test against the corners also passes
    the 2D test against the footprint: every enclosed lidar return lies over
    the footprint. *)
Theorem enclosed_point_is_over_footprint (cs : Corners) (p : vec3) :
  orthogonal_edges cs -> nonzero_edges cs -> cuboid cs -> upright cs ->
  point_in_box cs p = true ->
  points_in_box2d (footprint cs) p = true.
Proof.
  intros Horth Hnz Hcub Hup Hp.
  destruct (upright_edges_horizontal cs Horth Hnz Hup) as [Zi Zj].
  destruct (footprint_edges cs Hcub) as [E1 [E3 E0]].
  apply point_in_box_iff in Hp. destruct Hp as [Pi [Pj _]].
  destruct Horth as [Hij [Hik Hjk]]. destruct Hup as [Ux Uy].
  apply points_in_box2d_iff. rewrite E1, E3, E0.
  unfold dot3, sub3 in Pi, Pj, Hij, Hik, Hjk.
  cbn [vx vy vz] in Pi, Pj.
  rewrite Zi in Pi, Hij, Hik. rewrite Zj in Pj, Hij, Hjk.
  rewrite Ux, Uy in Hik, Hjk.
  unfold dot2, sub2, xy; cbn [ux uy]. rewrite Ux, Uy.
  repeat split; nra.
Qed.

Lemma enclosed_point_is_over_footprint_witness :
  points_in_box2d (footprint cube_corners) (xyz cube_point) = true.
Proof.
  apply (enclosed_point_is_over_footprint cube_corners (xyz cube_point)
           cube_orthogonal cube_nonzero cube_cuboid cube_upright).
  unfold_geometry. decide_cmp. reflexivity.
Defined.

(** X25: the one-cell pad of the search rectangle is never used.  For a
    rectangular footprint on a grid of positive size, every cell a run
    writes has its row between [search_area_right_idx] and
    [search_area_left_idx] and its column between [search_area_top_idx] and
    [search_area_bottom_idx]: no cell of the extra row [right_idx - 1] or
    column [top_idx - 1] is written, and the centre of a written cell lies
    in the bounding rectangle of the footprint. *)
Theorem written_cells_are_inside_the_unpadded_rectangle (size : Z)
    (box2d : Quad) (i j : Z) :
  rectangle box2d -> (0 < size)%Z ->
  written size box2d i j = true ->
  (search_area_right_idx size box2d <= i
   <= search_area_left_idx size box2d)%Z
  /\ (search_area_top_idx size box2d <= j
      <= search_area_bottom_idx size box2d)%Z
  /\ box2d_left box2d <= cell_center size i <= box2d_right box2d
  /\ box2d_bottom box2d <= cell_center size j <= box2d_top box2d.
Proof.
  intros Hrect Hs Hw. unfold written in Hw.
  apply andb_prop in Hw. destruct Hw as [_ Hm]. unfold cell_mask in Hm.
  destruct (accepted_in_bounds _ _ Hrect Hm) as [Hx Hy]. cbn [vx vy] in Hx, Hy.
  pose proof (index_of_center_bounds size i _ _ Hs Hx) as Hi.
  pose proof (index_of_center_bounds size j _ _ Hs Hy) as Hj.
  unfold search_area_right_idx, search_area_left_idx,
    search_area_top_idx, search_area_bottom_idx.
  repeat split; lia || lra.
Qed.

Lemma written_cells_are_inside_the_unpadded_rectangle_witness :
  (search_area_right_idx 2 (footprint cube_corners) <= 0
   <= search_area_left_idx 2 (footprint cube_corners))%Z
  /\ (search_area_top_idx 2 (footprint cube_corners) <= 0
      <= search_area_bottom_idx 2 (footprint cube_corners))%Z
  /\ box2d_left (footprint cube_corners) <= cell_center 2 0
     <= box2d_right (footprint cube_corners)
  /\ box2d_bottom (footprint cube_corners) <= cell_center 2 0
     <= box2d_top (footprint cube_corners).
Proof.
  apply (written_cells_are_inside_the_unpadded_rectangle 2
           (footprint cube_corners) 0 0).
  - apply cube_rectangle.
  - lia.
  - apply cube_written.
Defined.
